(** * Boids with perception delay: a shallow embedding of [src/boids.py]

    The simulation core of [BoidSimulation] (construction, the spatial grid,
    the delayed neighbour query, the three flocking rules, boundary steering,
    the speed limiter, integration and the per-frame [update_boids]) is
    modelled over the real numbers: Python floats are read as exact reals.
    Python's exceptions are an explicit error result. Of the pygame display
    calls only the size check of [set_mode] is modelled, as it can raise at
    construction: [draw] is modelled by what it computes (the
    delayed marker and the trajectory segments), and [run] by its handling of
    the events, one frame after another. *)

From Stdlib Require Import Reals Lra ZArith Lia List Bool.
Import ListNotations.
Open Scope R_scope.

(** ** Python runtime: exceptions, indexing, [deque], [int()] *)

(** [PygameError] is [pygame.error]. *)
Inductive exn := IndexError | ZeroDivisionError | ValueError | PygameError.

Inductive result (A : Type) : Type :=
| Ok (a : A)
| Err (e : exn).
Arguments Ok {A} a.
Arguments Err {A} e.

Definition bind {A B} (m : result A) (k : A -> result B) : result B :=
  match m with Ok a => k a | Err e => Err e end.

Notation "'let*' v ':=' m 'in' k" := (bind m (fun v => k))
  (at level 200, v name, m at level 100, right associativity).

(** A [for] loop whose body may raise. *)
Fixpoint fold_res {A B} (f : B -> A -> result B) (l : list A) (acc : B)
  : result B :=
  match l with
  | [] => Ok acc
  | a :: l' => let* acc' := f acc a in fold_res f l' acc'
  end.

(** [l[i]] on a Python sequence, negative indices counting from the end. *)
Definition py_index {A} (l : list A) (i : Z) : result A :=
  let n := Z.of_nat (length l) in
  let j := if (i <? 0)%Z then (n + i)%Z else i in
  if ((0 <=? j) && (j <? n))%Z then
    match nth_error l (Z.to_nat j) with
    | Some a => Ok a
    | None => Err IndexError
    end
  else Err IndexError.

(** [collections.deque] with a [maxlen]: [append] drops items from the left
    so that at most [maxlen] remain. *)
Record deque (A : Type) := mk_deque { maxlen : nat; items : list A }.
Arguments mk_deque {A} maxlen items.
Arguments maxlen {A} d.
Arguments items {A} d.

(** [deque(maxlen=m)]: Python refuses a negative [maxlen]. *)
Definition new_deque {A} (m : Z) : result (deque A) :=
  if (m <? 0)%Z then Err ValueError else Ok (mk_deque (Z.to_nat m) []).

Definition deque_append {A} (d : deque A) (a : A) : deque A :=
  let l := items d ++ [a] in
  mk_deque (maxlen d) (skipn (length l - maxlen d) l).

(** Float division [a / b]: [ZeroDivisionError] when [b] is zero. *)
Definition py_div (a b : R) : result R :=
  if Req_EM_T b 0 then Err ZeroDivisionError else Ok (a / b).

(** [int(r)] of a float truncates toward zero. *)
Definition py_int (r : R) : Z :=
  if Rle_dec 0 r then Int_part r else (- Int_part (- r))%Z.

(** Mathematical floor, for comparison with [py_int]. *)
Definition floor (r : R) : Z := Int_part r.

(** ** Data model *)

Record Boid := mkBoid {
  x : R;
  y : R;
  dx : R;
  dy : R;
  position_history : deque (R * R);
  velocity_history : deque (R * R)
}.

Definition set_velocity (b : Boid) (vx vy : R) : Boid :=
  mkBoid (x b) (y b) vx vy (position_history b) (velocity_history b).

(** The fields of [BoidSimulation] the core reads. *)
Record Sim := mkSim {
  width : R;
  height : R;
  num_boids : Z;
  visual_range : R;
  visual_range_sq : R;
  cell_size : R;
  perception_delay : Z;
  boids : list Boid
}.

Definition set_boids (s : Sim) (bs : list Boid) : Sim :=
  mkSim (width s) (height s) (num_boids s) (visual_range s)
    (visual_range_sq s) (cell_size s) (perception_delay s) bs.

Definition set_perception_delay (s : Sim) (d : Z) : Sim :=
  mkSim (width s) (height s) (num_boids s) (visual_range s)
    (visual_range_sq s) (cell_size s) d (boids s).

(** [self.boids[i] = b]: the boid objects are shared, so the store is a list
    updated in place by index. *)
Fixpoint replace_nth {A} (l : list A) (i : nat) (a : A) : list A :=
  match l, i with
  | [], _ => []
  | _ :: l', O => a :: l'
  | b :: l', S i' => b :: replace_nth l' i' a
  end.

(** ** [__init__]

    The random draws of [np.random.rand()] are an input stream [rand]: the
    k-th boid uses the draws [4k .. 4k+3]. Of pygame's setup only
    [set_mode] is modelled: [pygame.init()] and the caption raise nothing. *)

(** [pygame.display.set_mode((width, height))] refuses a negative size with
    [pygame.error] ("Cannot set negative sized display mode"); [main] passes
    integers, for which that is the test [width < 0 or height < 0]. A missing
    video device depends on the environment and is not modelled. *)
Definition set_mode (width height : R) : result unit :=
  if Rlt_dec width 0 then Err PygameError
  else if Rlt_dec height 0 then Err PygameError
  else Ok tt.

Definition init_boid (width height : R) (perception_delay : Z)
    (rand : nat -> R) (k : nat) : result Boid :=
  let maxlen := (perception_delay + 1)%Z in
  let* position_history := new_deque 100 in
  let* velocity_history := new_deque maxlen in
  let x := rand (4 * k)%nat * width in
  let y := rand (4 * k + 1)%nat * height in
  let dx := rand (4 * k + 2)%nat * 10 - 5 in
  let dy := rand (4 * k + 3)%nat * 10 - 5 in
  let fill := seq 0 (Z.to_nat (perception_delay + 1)) in
  let position_history :=
    fold_left (fun d _ => deque_append d (x, y)) fill position_history in
  let velocity_history :=
    fold_left (fun d _ => deque_append d (dx, dy)) fill velocity_history in
  Ok (mkBoid x y dx dy position_history velocity_history).

Definition BoidSimulation (width height : R) (perception_delay num_boids : Z)
    (vis_range : R) (rand : nat -> R) : result Sim :=
  let* _ := set_mode width height in
  let* bs := fold_res
    (fun acc k => let* b := init_boid width height perception_delay rand k in
                  Ok (acc ++ [b]))
    (seq 0 (Z.to_nat num_boids)) [] in
  Ok (mkSim width height num_boids vis_range (vis_range * vis_range)
        vis_range perception_delay bs).

(** ** The spatial grid: a dict from cells to lists of boids

    Boids are referred to by their index in [self.boids]; the dict keeps the
    insertion order of its keys and of each bucket. *)

Definition cell := (Z * Z)%type.
Definition grid := list (cell * list nat).

Definition cell_eqb (c c' : cell) : bool :=
  Z.eqb (fst c) (fst c') && Z.eqb (snd c) (snd c').

Fixpoint grid_lookup (g : grid) (c : cell) : option (list nat) :=
  match g with
  | [] => None
  | (c', l) :: g' => if cell_eqb c c' then Some l else grid_lookup g' c
  end.

(** [if cell not in grid: grid[cell] = []] then [grid[cell].append(i)]. *)
Fixpoint grid_add (g : grid) (c : cell) (i : nat) : grid :=
  match g with
  | [] => [(c, [i])]
  | (c', l) :: g' =>
      if cell_eqb c c' then (c', l ++ [i]) :: g' else (c', l) :: grid_add g' c i
  end.

(** [(int(boid.x / self.cell_size), int(boid.y / self.cell_size))] *)
Definition cell_of (cell_size : R) (b : Boid) : result cell :=
  let* qx := py_div (x b) cell_size in
  let* qy := py_div (y b) cell_size in
  Ok (py_int qx, py_int qy).

Fixpoint build_grid_from (cell_size : R) (i : nat) (bs : list Boid) (g : grid)
  : result grid :=
  match bs with
  | [] => Ok g
  | b :: bs' =>
      let* c := cell_of cell_size b in
      build_grid_from cell_size (S i) bs' (grid_add g c i)
  end.

Definition build_grid (cell_size : R) (bs : list Boid) : result grid :=
  build_grid_from cell_size 0 bs [].

(** ** [get_neighbors_with_delay]

    A neighbour is [(other, delayed_x, delayed_y, delayed_velocity)]. *)

Definition neighbor := (nat * R * R * (R * R))%type.

Definition visit_other (s : Sim) (store : list Boid) (bi : nat) (boid : Boid)
    (neighbors : list neighbor) (other : nat) : result (list neighbor) :=
  if Nat.eqb other bi then Ok neighbors
  else
    match nth_error store other with
    | None => Ok neighbors  (* grid indices always address [self.boids] *)
    | Some o =>
        if (perception_delay s <? Z.of_nat (length (items (position_history o))))%Z
        then
          let* p := py_index (items (position_history o)) (- perception_delay s) in
          let (delayed_x, delayed_y) := p in
          let ddx := x boid - delayed_x in
          let ddy := y boid - delayed_y in
          if Rlt_dec (ddx * ddx + ddy * ddy) (visual_range_sq s) then
            let* v := py_index (items (velocity_history o)) (- perception_delay s) in
            Ok (neighbors ++ [(other, delayed_x, delayed_y, v)])
          else Ok neighbors
        else Ok neighbors
    end.

(** [range(c - 1, c + 2)] *)
Definition around (c : Z) : list Z := [(c - 1)%Z; c; (c + 1)%Z].

(** The loops over the 3 x 3 block of cells around the boid's cell. *)
Definition scan_cells (s : Sim) (store : list Boid) (bi : nat) (boid : Boid)
    (g : grid) (current_cell_x current_cell_y : Z) : result (list neighbor) :=
  fold_res (fun neighbors i =>
    fold_res (fun neighbors j =>
      match grid_lookup g (i, j) with
      | None => Ok neighbors
      | Some bucket => fold_res (visit_other s store bi boid) bucket neighbors
      end) (around current_cell_y) neighbors)
    (around current_cell_x) [].

Definition get_neighbors_with_delay (s : Sim) (store : list Boid) (bi : nat)
    (boid : Boid) (g : grid) : result (list neighbor) :=
  let* qx := py_div (x boid) (cell_size s) in
  let* qy := py_div (y boid) (cell_size s) in
  let current_cell_x := py_int qx in
  let current_cell_y := py_int qy in
  scan_cells s store bi boid g current_cell_x current_cell_y.

(** ** The rules *)

Definition centering_factor : R := 0.005.
Definition min_distance : R := 20.
Definition avoid_factor : R := 0.05.
Definition matching_factor : R := 0.05.
Definition speed_limit : R := 10.
Definition margin : R := 200.
Definition turn_factor : R := 1.

Definition fly_towards_center (boid : Boid) (neighbors : list neighbor) : Boid :=
  let '(centerX, centerY, num_neighbors) :=
    fold_left (fun acc (n : neighbor) =>
      let '(cX, cY, k) := acc in
      let '(_, delayed_x, delayed_y, _) := n in
      (cX + delayed_x, cY + delayed_y, S k)) neighbors (0, 0, O) in
  match num_neighbors with
  | O => boid
  | _ =>
      let centerX := centerX / INR num_neighbors in
      let centerY := centerY / INR num_neighbors in
      set_velocity boid (dx boid + (centerX - x boid) * centering_factor)
                        (dy boid + (centerY - y boid) * centering_factor)
  end.

Definition avoid_others (boid : Boid) (neighbors : list neighbor) : Boid :=
  let min_distance_sq := min_distance * min_distance in
  let '(moveX, moveY) :=
    fold_left (fun acc (n : neighbor) =>
      let '(mX, mY) := acc in
      let '(_, delayed_x, delayed_y, _) := n in
      let ddx := x boid - delayed_x in
      let ddy := y boid - delayed_y in
      if Rlt_dec (ddx * ddx + ddy * ddy) min_distance_sq
      then (mX + ddx, mY + ddy) else (mX, mY)) neighbors (0, 0) in
  set_velocity boid (dx boid + moveX * avoid_factor)
                    (dy boid + moveY * avoid_factor).

Definition match_velocity (boid : Boid) (neighbors : list neighbor) : Boid :=
  let '(avgDX, avgDY, num_neighbors) :=
    fold_left (fun acc (n : neighbor) =>
      let '(aX, aY, k) := acc in
      let '(_, _, _, (delayed_dx, delayed_dy)) := n in
      (aX + delayed_dx, aY + delayed_dy, S k)) neighbors (0, 0, O) in
  match num_neighbors with
  | O => boid
  | _ =>
      let avgDX := avgDX / INR num_neighbors in
      let avgDY := avgDY / INR num_neighbors in
      set_velocity boid (dx boid + (avgDX - dx boid) * matching_factor)
                        (dy boid + (avgDY - dy boid) * matching_factor)
  end.

(** The four checks run one after the other on the updated velocity. *)
Definition keep_within_bounds (width height : R) (boid : Boid) : Boid :=
  let vx := dx boid in
  let vx := if Rlt_dec (x boid) margin then vx + turn_factor else vx in
  let vx := if Rlt_dec (width - margin) (x boid) then vx - turn_factor else vx in
  let vy := dy boid in
  let vy := if Rlt_dec (y boid) margin then vy + turn_factor else vy in
  let vy := if Rlt_dec (height - margin) (y boid) then vy - turn_factor else vy in
  set_velocity boid vx vy.

Definition speed (b : Boid) : R := sqrt (dx b * dx b + dy b * dy b).

Definition limit_speed (boid : Boid) : Boid :=
  let speed := sqrt (dx boid * dx boid + dy boid * dy boid) in
  if Rlt_dec speed_limit speed then
    set_velocity boid ((dx boid / speed) * speed_limit)
                      ((dy boid / speed) * speed_limit)
  else boid.

(** The body of the per-boid loop before the position update. *)
Definition apply_rules (s : Sim) (boid : Boid) (neighbors : list neighbor) : Boid :=
  let boid := fly_towards_center boid neighbors in
  let boid := avoid_others boid neighbors in
  let boid := match_velocity boid neighbors in
  let boid := keep_within_bounds (width s) (height s) boid in
  limit_speed boid.

(** Position update, then the two history appends. *)
Definition integrate (boid : Boid) : Boid :=
  let nx := x boid + dx boid in
  let ny := y boid + dy boid in
  mkBoid nx ny (dx boid) (dy boid)
    (deque_append (position_history boid) (nx, ny))
    (deque_append (velocity_history boid) (dx boid, dy boid)).

(** ** [update_boids]: the loop mutates [self.boids] in place *)

Definition process_boid (s : Sim) (g : grid) (store : list Boid) (i : nat)
  : result (list Boid) :=
  match nth_error store i with
  | None => Ok store
  | Some boid =>
      let* neighbors := get_neighbors_with_delay s store i boid g in
      Ok (replace_nth store i (integrate (apply_rules s boid neighbors)))
  end.

Definition update_boids (s : Sim) : result Sim :=
  let* g := build_grid (cell_size s) (boids s) in
  let* store := fold_res (process_boid s g) (seq 0 (length (boids s))) (boids s) in
  Ok (set_boids s store).

Fixpoint run_ticks (n : nat) (s : Sim) : result Sim :=
  match n with
  | O => Ok s
  | S n' => let* s' := update_boids s in run_ticks n' s'
  end.

(** The up and down arrow keys of [run]. *)
Definition key_up (s : Sim) : Sim :=
  set_perception_delay s (Z.min 10 (perception_delay s + 1)).

Definition key_down (s : Sim) : Sim :=
  set_perception_delay s (Z.max 1 (perception_delay s - 1)).

(** ** The spec's reading of a tick: compute every boid from the snapshot
    frozen at tick start, then commit all of them at once. *)
Definition update_boids_two_phase (s : Sim) : result Sim :=
  let* g := build_grid (cell_size s) (boids s) in
  let* rev_new := fold_res (fun acc i =>
      match nth_error (boids s) i with
      | None => Ok acc
      | Some boid =>
          let* neighbors := get_neighbors_with_delay s (boids s) i boid g in
          Ok (integrate (apply_rules s boid neighbors) :: acc)
      end) (seq 0 (length (boids s))) [] in
  Ok (set_boids s (rev rev_new)).

(** The spec's [delayed(D)]: the sample [D] positions before the most recent,
    index [length - 1 - D], defined when [length > D]. *)
Definition spec_delayed {A} (l : list A) (D : nat) : option A :=
  if Nat.ltb D (length l) then nth_error l (length l - 1 - D) else None.

(** ** The two-boid scenario of the spec

    [A] at (0,0) moving (1,0), [B] at (10,0) moving (-1,0), visual range 75
    (so cell size 75), perception delay 1, the default 1024 x 768 arena and
    histories filled at construction with [delay + 1 = 2] copies. *)

Definition boid_A : Boid :=
  mkBoid 0 0 1 0 (mk_deque 100 [(0, 0); (0, 0)]) (mk_deque 2 [(1, 0); (1, 0)]).

Definition boid_B : Boid :=
  mkBoid 10 0 (-1) 0 (mk_deque 100 [(10, 0); (10, 0)])
    (mk_deque 2 [(-1, 0); (-1, 0)]).

Definition scenario : Sim := mkSim 1024 768 2 75 (75 * 75) 75 1 [boid_A; boid_B].

Definition scenario_grid : grid := [((0, 0)%Z, [0%nat; 1%nat])].

(** [A] after its update in the first frame. *)
Definition boid_A1 : Boid :=
  mkBoid 1.4725 1 1.4725 1
    (mk_deque 100 [(0, 0); (0, 0); (1.4725, 1)]) (mk_deque 2 [(1, 0); (1.4725, 1)]).

(** [B] after its update in the first frame of [update_boids]. *)
Definition boid_B1 : Boid :=
  mkBoid 10.488175625 1.00725 0.488175625 1.00725
    (mk_deque 100 [(10, 0); (10, 0); (10.488175625, 1.00725)])
    (mk_deque 2 [(-1, 0); (0.488175625, 1.00725)]).

(** [B] after the first frame of [update_boids_two_phase]. *)
Definition boid_B1_two_phase : Boid :=
  mkBoid 10.5275 1 0.5275 1
    (mk_deque 100 [(10, 0); (10, 0); (10.5275, 1)])
    (mk_deque 2 [(-1, 0); (0.5275, 1)]).

(** The three flocking rules in the order the loop applies them, and the
    velocity handed to [limit_speed]. *)
Definition flock_rules (boid : Boid) (neighbors : list neighbor) : Boid :=
  match_velocity (avoid_others (fly_towards_center boid neighbors) neighbors)
    neighbors.

Definition pre_limit (s : Sim) (boid : Boid) (neighbors : list neighbor) : Boid :=
  keep_within_bounds (width s) (height s) (flock_rules boid neighbors).

(** A frame later in a run with delay 1: [B] has moved from (10,0) to (12,0)
    and its history holds both samples. *)
Definition boid_B_moved : Boid :=
  mkBoid 12 0 2 0 (mk_deque 100 [(10, 0); (10, 0); (12, 0)])
    (mk_deque 2 [(2, 0); (2, 0)]).

Definition moved_state : Sim :=
  mkSim 1024 768 2 75 (75 * 75) 75 1 [boid_A; boid_B_moved].

(** A single boid: it never has a neighbour. *)
Definition lone_state : Sim := mkSim 1024 768 1 75 (75 * 75) 75 1 [boid_A].

Definition lone_grid : grid := [((0, 0)%Z, [0%nat])].

(** The histories of a freshly constructed boid with delay [D]. *)
Definition fresh_boid_ok (D : Z) (b : Boid) : Prop :=
  items (position_history b) = repeat (x b, y b) (Nat.min (Z.to_nat (D + 1)) 100) /\
  maxlen (position_history b) = 100%nat /\
  items (velocity_history b) = repeat (dx b, dy b) (Z.to_nat (D + 1)) /\
  maxlen (velocity_history b) = Z.to_nat (D + 1).

(** The bounds the histories keep from frame to frame. *)
Definition history_ok (D : Z) (b : Boid) : Prop :=
  maxlen (position_history b) = 100%nat /\
  (Nat.min (Z.to_nat (D + 1)) 100 <= length (items (position_history b)) <= 100)%nat /\
  maxlen (velocity_history b) = Z.to_nat (D + 1) /\
  length (items (velocity_history b)) = Z.to_nat (D + 1).

(** The fields of [BoidSimulation] that [update_boids] reads. *)
Definition same_inputs (s1 s2 : Sim) : Prop :=
  width s1 = width s2 /\ height s1 = height s2 /\
  visual_range_sq s1 = visual_range_sq s2 /\ cell_size s1 = cell_size s2 /\
  perception_delay s1 = perception_delay s2 /\ boids s1 = boids s2.

(** The rules change only a boid's velocity: position and both histories
    stay as they were. *)
Definition same_place (a b : Boid) : Prop :=
  x a = x b /\ y a = y b /\ position_history a = position_history b /\
  velocity_history a = velocity_history b.

(** ** A run of the default window and delay with two boids at rest

    Both boids start at (300, 300) with velocity (0, 0): the draws put
    [x = 300/1024 * 1024], [y = 300/768 * 768] and [dx = dy = 1/2 * 10 - 5].
    Frame [n] leaves them in place with [2 + n] position samples. *)
Definition still_rand (k : nat) : R :=
  match (k mod 4)%nat with 0%nat => 300 / 1024 | 1%nat => 300 / 768 | _ => 1 / 2 end.

Definition still_boid (n : nat) : Boid :=
  mkBoid 300 300 0 0 (mk_deque 100 (repeat (300, 300) (2 + n)))
    (mk_deque 2 [(0, 0); (0, 0)]).

Definition still_state (n : nat) : Sim :=
  mkSim 1024 768 2 75 (75 * 75) 75 1 [still_boid n; still_boid n].

(** Both boids in cell (4, 4). *)
Definition still_grid_val : grid := [((4%Z, 4%Z), [0%nat; 1%nat])].

(** ** A lone boid faster than the limit

    [F] at (10, 10) with velocity (11, 15) and no neighbour: boundary steering
    makes it (12, 16), of speed 20, which the limiter scales to (6, 8). *)
Definition boid_F : Boid :=
  mkBoid 10 10 11 15 (mk_deque 100 [(10, 10); (10, 10)]) (mk_deque 2 [(11, 15); (11, 15)]).

Definition fast_state : Sim := mkSim 1024 768 1 75 (75 * 75) 75 1 [boid_F].

Definition boid_F1 : Boid :=
  mkBoid 16 18 6 8 (mk_deque 100 [(10, 10); (10, 10); (16, 18)])
    (mk_deque 2 [(11, 15); (6, 8)]).

(** ** [draw]: the delayed marker and the trajectory

    The triangle of each boid and the text are pygame drawing calls with no
    effect on the state; they are not modelled. *)

(** [clamp_circle]: [max(radius, min(self.width - radius, x))], and the same
    for [y]. *)
Definition clamp_circle (width height x y radius : R) : R * R :=
  (Rmax radius (Rmin (width - radius) x), Rmax radius (Rmin (height - radius) y)).

(** The red marker at the delayed position: drawn when
    [len(boid.position_history) >= self.perception_delay], at
    [position_history[-self.perception_delay]] clamped to the screen, in
    pixels [(int(delayed_x), int(delayed_y))]. *)
Definition delayed_marker (s : Sim) (boid : Boid) : result (option (Z * Z)) :=
  if (perception_delay s <=? Z.of_nat (length (items (position_history boid))))%Z then
    let* p := py_index (items (position_history boid)) (- perception_delay s) in
    let (delayed_x, delayed_y) := clamp_circle (width s) (height s) (fst p) (snd p) 2 in
    Ok (Some (py_int delayed_x, py_int delayed_y))
  else Ok None.

(** [fade_factor = i / len(points)] and the colour of segment [i]. *)
Definition fade_color (i n : nat) : Z * Z * Z :=
  let fade_factor := INR i / INR n in
  (py_int (100 * fade_factor), py_int (255 * fade_factor), py_int (100 * fade_factor)).

Definition segment := ((R * R) * (R * R) * (Z * Z * Z))%type.

(** [for i in range(1, len(points))]: the line from [points[i - 1]] to
    [points[i]]. *)
Definition trajectory_segments (points : list (R * R)) : list segment :=
  map (fun i => (nth (i - 1) points (0, 0), nth i points (0, 0),
                 fade_color i (length points)))
    (seq 1 (length points - 1)).

Definition trajectory (show_trajectories : bool) (boid : Boid) : list segment :=
  let points := items (position_history boid) in
  if show_trajectories && (1 <? length points)%nat
  then trajectory_segments points else [].

(** What [draw] puts on the screen for each boid, in list order; reading the
    delayed sample may raise. *)
Definition draw (s : Sim) (show_trajectories : bool)
  : result (list (option (Z * Z) * list segment)) :=
  fold_res (fun acc boid =>
    let* m := delayed_marker s boid in
    Ok (acc ++ [(m, trajectory show_trajectories boid)])) (boids s) [].

(** ** [run]: the event loop *)

Inductive key := K_ESCAPE | K_UP | K_DOWN | K_t | K_other.
Inductive event := QUIT | KEYDOWN (k : key) | OTHER_EVENT.

Record App := mkApp {
  sim : Sim;
  show_trajectories : bool;
  running : bool
}.

Definition handle_event (a : App) (ev : event) : App :=
  match ev with
  | QUIT | KEYDOWN K_ESCAPE => mkApp (sim a) (show_trajectories a) false
  | KEYDOWN K_UP => mkApp (key_up (sim a)) (show_trajectories a) (running a)
  | KEYDOWN K_DOWN => mkApp (key_down (sim a)) (show_trajectories a) (running a)
  | KEYDOWN K_t => mkApp (sim a) (negb (show_trajectories a)) (running a)
  | KEYDOWN K_other | OTHER_EVENT => a
  end.

(** One pass of [while running]: all pending events, then [update_boids] and
    [draw]. *)
Definition frame (a : App) (events : list event) : result App :=
  let a := fold_left handle_event events a in
  let* s := update_boids (sim a) in
  let* _ := draw s (show_trajectories a) in
  Ok (mkApp s (show_trajectories a) (running a)).

(** The loop, fed one list of pending events per pass. *)
Fixpoint run_loop (frames : list (list event)) (a : App) : result App :=
  match frames with
  | [] => Ok a
  | events :: rest =>
      if running a then let* a' := frame a events in run_loop rest a' else Ok a
  end.

(** [self.show_trajectories = False] at construction; [running = True]. *)
Definition start (s : Sim) : App := mkApp s false true.

(** ** [main]: the command-line defaults *)

Definition main (rand : nat -> R) : result App :=
  let* s := BoidSimulation 1024 768 1 100 75 rand in Ok (start s).

(** ** Predicates and helpers for the properties below *)

(** The grid's bucket of a cell, [[]] when the cell is absent. *)
Definition bucket_of (g : grid) (c : cell) : list nat :=
  match grid_lookup g c with Some l => l | None => [] end.

(** The indices, from [i] on, of the boids of [bs] whose cell is [c]. *)
Fixpoint cell_indices (cs : R) (c : cell) (i : nat) (bs : list Boid) : list nat :=
  match bs with
  | [] => []
  | b :: bs' =>
      match cell_of cs b with
      | Ok c' => if cell_eqb c c' then i :: cell_indices cs c (S i) bs'
                 else cell_indices cs c (S i) bs'
      | Err _ => cell_indices cs c (S i) bs'
      end
  end.

(** The reads [velocity_history[-D]] stay defined for delay [D]. *)
Definition vel_ok (D : Z) (b : Boid) : Prop :=
  (Z.to_nat D <= length (items (velocity_history b)) <= maxlen (velocity_history b))%nat.

(** No pass of the loop receives an up-arrow key press. *)
Definition no_key_up (frames : list (list event)) : Prop :=
  Forall (fun evs => ~ In (KEYDOWN K_UP) evs) frames.

(** The exact history lengths [n] frames after construction with delay [D]. *)
Definition lengths_ok (D : Z) (n : nat) (b : Boid) : Prop :=
  length (items (position_history b)) = Nat.min (Z.to_nat (D + 1) + n) 100 /\
  maxlen (position_history b) = 100%nat /\
  length (items (velocity_history b)) = Z.to_nat (D + 1) /\
  maxlen (velocity_history b) = Z.to_nat (D + 1).

(** The state of the loop keeps every read defined while the delay stays in
    [1, Dmax] and the velocity histories hold at least [Dmax] samples. *)
Definition app_ok (Dmax : Z) (a : App) : Prop :=
  (1 <= perception_delay (sim a) <= Dmax)%Z /\ cell_size (sim a) <> 0 /\
  Forall (vel_ok Dmax) (boids (sim a)).

(** What a neighbour entry returned to [boid] (index [bi]) stands for: another
    boid of the list whose position history passed the guard, read at
    [-perception_delay] in both histories, strictly within visual range. *)
Definition perceived (s : Sim) (store : list Boid) (bi : nat) (boid : Boid)
    (n : neighbor) : Prop :=
  let '(j, px, py, v) := n in
  j <> bi /\ exists o, nth_error store j = Some o /\
    (perception_delay s < Z.of_nat (length (items (position_history o))))%Z /\
    py_index (items (position_history o)) (- perception_delay s) = Ok (px, py) /\
    py_index (items (velocity_history o)) (- perception_delay s) = Ok v /\
    (x boid - px) * (x boid - px) + (y boid - py) * (y boid - py) < visual_range_sq s.

(** The sum of a list of reals, for the averages of the rules. *)
Definition sum_R (l : list R) : R := fold_right Rplus 0 l.

(** ** Evaluation lemmas for the Python runtime *)

Lemma py_div_ok (a b : R) : b <> 0 -> py_div a b = Ok (a / b).
Proof. intro Hb. unfold py_div. destruct (Req_EM_T b 0); [contradiction | reflexivity]. Qed.

Lemma floor_unique (r : R) (z : Z) : IZR z <= r < IZR z + 1 -> floor r = z.
Proof. intros [H1 H2]. unfold floor. symmetry. apply Int_part_spec. lra. Qed.

Lemma py_int_nonneg (r : R) : 0 <= r -> py_int r = floor r.
Proof. intro H. unfold py_int. destruct (Rle_dec 0 r); [reflexivity | contradiction]. Qed.

Lemma py_int_neg (r : R) : r < 0 -> py_int r = (- floor (- r))%Z.
Proof. intro H. unfold py_int. destruct (Rle_dec 0 r); [lra | reflexivity]. Qed.

(** [int()] sends the whole open interval (-1, 1) to 0. *)
Lemma py_int_zero (r : R) : -1 < r < 1 -> py_int r = 0%Z.
Proof.
  intros [H1 H2]. destruct (Rle_dec 0 r) as [Hr | Hr].
  - rewrite py_int_nonneg by exact Hr. apply floor_unique. simpl. lra.
  - rewrite py_int_neg by lra. rewrite (floor_unique (- r) 0); [reflexivity |].
    simpl. lra.
Qed.

Lemma cell_of_ok (cs : R) (b : Boid) :
  cs <> 0 -> cell_of cs b = Ok (py_int (x b / cs), py_int (y b / cs)).
Proof. intro H. unfold cell_of. rewrite !py_div_ok by exact H. reflexivity. Qed.

Lemma limit_speed_slow (b : Boid) :
  dx b * dx b + dy b * dy b <= speed_limit * speed_limit -> limit_speed b = b.
Proof.
  intro H. unfold limit_speed, speed_limit in *.
  destruct (Rlt_dec 10 (sqrt (dx b * dx b + dy b * dy b))) as [Hlt | Hge];
    [exfalso | reflexivity].
  assert (Hs : sqrt (dx b * dx b + dy b * dy b) <= sqrt (10 * 10)).
  { apply sqrt_le_1_alt. exact H. }
  rewrite sqrt_square in Hs by lra. lra.
Qed.

(** Settle the real comparisons of a concrete computation. *)
Ltac decide_reals :=
  repeat match goal with
  | |- context [Rlt_dec ?a ?b] =>
      destruct (Rlt_dec a b); [try (exfalso; lra) | try (exfalso; lra)]
  | |- context [Rle_dec ?a ?b] =>
      destruct (Rle_dec a b); [try (exfalso; lra) | try (exfalso; lra)]
  | |- context [Req_EM_T ?a ?b] =>
      destruct (Req_EM_T a b); [try (exfalso; lra) | try (exfalso; lra)]
  end.

Ltac eq_struct :=
  repeat match goal with
  | |- Ok _ = Ok _ => f_equal
  | |- mkSim _ _ _ _ _ _ _ _ = mkSim _ _ _ _ _ _ _ _ => f_equal
  | |- mkBoid _ _ _ _ _ _ = mkBoid _ _ _ _ _ _ => f_equal
  | |- mk_deque _ _ = mk_deque _ _ => f_equal
  | |- (_ :: _) = (_ :: _) => f_equal
  | |- (_, _) = (_, _) => f_equal
  end; try lra.

(** Run a concrete piece of the engine: unfold, settle the divisions, the
    truncations and the comparisons. *)
Ltac run_py :=
  repeat (progress (cbv -[IZR Rdiv Rplus Rmult Rminus Ropp Rinv sqrt Rlt_dec
    Rle_dec Req_EM_T py_div py_int cell_of limit_speed];
    try rewrite !cell_of_ok by lra; try rewrite !py_div_ok by lra;
    try rewrite !py_int_zero by lra; decide_reals)).

(** ** The scenario, frame by frame *)

Lemma scenario_build_grid : build_grid 75 [boid_A; boid_B] = Ok scenario_grid.
Proof. unfold build_grid. run_py. reflexivity. Qed.

Lemma scenario_neighbors_A :
  get_neighbors_with_delay scenario [boid_A; boid_B] 0 boid_A scenario_grid
  = Ok [(1%nat, 10, 0, (-1, 0))].
Proof. unfold get_neighbors_with_delay. run_py. reflexivity. Qed.

Lemma scenario_rules_A :
  apply_rules scenario boid_A [(1%nat, 10, 0, (-1, 0))]
  = set_velocity boid_A 1.4725 1.
Proof.
  unfold apply_rules. run_py.
  rewrite limit_speed_slow by (cbv [dx dy speed_limit]; lra).
  unfold set_velocity. eq_struct.
Qed.

Lemma scenario_integrate_A : integrate (set_velocity boid_A 1.4725 1) = boid_A1.
Proof. unfold boid_A1. run_py. eq_struct. Qed.

Lemma scenario_neighbors_B :
  get_neighbors_with_delay scenario [boid_A1; boid_B] 1 boid_B scenario_grid
  = Ok [(0%nat, 1.4725, 1, (1.4725, 1))].
Proof. unfold get_neighbors_with_delay. run_py. reflexivity. Qed.

Lemma scenario_rules_B :
  apply_rules scenario boid_B [(0%nat, 1.4725, 1, (1.4725, 1))]
  = set_velocity boid_B 0.488175625 1.00725.
Proof.
  unfold apply_rules. run_py.
  rewrite limit_speed_slow by (cbv [dx dy speed_limit]; lra).
  unfold set_velocity. eq_struct.
Qed.

Lemma scenario_integrate_B :
  integrate (set_velocity boid_B 0.488175625 1.00725) = boid_B1.
Proof. unfold boid_B1. run_py. eq_struct. Qed.

Lemma scenario_neighbors_B_frozen :
  get_neighbors_with_delay scenario [boid_A; boid_B] 1 boid_B scenario_grid
  = Ok [(0%nat, 0, 0, (1, 0))].
Proof. unfold get_neighbors_with_delay. run_py. reflexivity. Qed.

Lemma scenario_rules_B_frozen :
  apply_rules scenario boid_B [(0%nat, 0, 0, (1, 0))]
  = set_velocity boid_B 0.5275 1.
Proof.
  unfold apply_rules. run_py.
  rewrite limit_speed_slow by (cbv [dx dy speed_limit]; lra).
  unfold set_velocity. eq_struct.
Qed.

Lemma scenario_integrate_B_frozen :
  integrate (set_velocity boid_B 0.5275 1) = boid_B1_two_phase.
Proof. unfold boid_B1_two_phase. run_py. eq_struct. Qed.

(** The first frame of [update_boids]: [B] is processed after [A] and reads
    the sample [A] has just appended. *)
Lemma scenario_update :
  update_boids scenario = Ok (set_boids scenario [boid_A1; boid_B1]).
Proof.
  unfold update_boids.
  change (cell_size scenario) with 75. change (boids scenario) with [boid_A; boid_B].
  rewrite scenario_build_grid. cbn [bind fold_res seq length].
  unfold process_boid at 1. cbn [nth_error].
  rewrite scenario_neighbors_A. cbn [bind].
  rewrite scenario_rules_A, scenario_integrate_A. cbn [replace_nth].
  unfold process_boid. cbn [nth_error].
  rewrite scenario_neighbors_B. cbn [bind].
  rewrite scenario_rules_B, scenario_integrate_B. reflexivity.
Qed.

(** The same frame computed from the frozen snapshot. *)
Lemma scenario_update_two_phase :
  update_boids_two_phase scenario
  = Ok (set_boids scenario [boid_A1; boid_B1_two_phase]).
Proof.
  unfold update_boids_two_phase.
  change (cell_size scenario) with 75. change (boids scenario) with [boid_A; boid_B].
  rewrite scenario_build_grid. cbn [bind fold_res seq length nth_error].
  rewrite scenario_neighbors_A. cbn [bind].
  rewrite scenario_rules_A, scenario_integrate_A.
  cbn [nth_error].
  rewrite scenario_neighbors_B_frozen. cbn [bind].
  rewrite scenario_rules_B_frozen, scenario_integrate_B_frozen. reflexivity.
Qed.

(** ** The in-place loop of [update_boids] *)

Lemma fold_res_app {A B} (f : B -> A -> result B) (l1 l2 : list A) (acc : B) :
  fold_res f (l1 ++ l2) acc = let* b := fold_res f l1 acc in fold_res f l2 b.
Proof.
  revert acc. induction l1 as [| a l1 IH]; intro acc; simpl; [reflexivity |].
  destruct (f acc a); simpl; [apply IH | reflexivity].
Qed.

Lemma replace_nth_length {A} (l : list A) (i : nat) (a : A) :
  length (replace_nth l i a) = length l.
Proof.
  revert i. induction l as [| b l IH]; intros [| i]; simpl; auto.
Qed.

Lemma nth_error_replace_nth_same {A} (l : list A) (i : nat) (a : A) :
  (i < length l)%nat -> nth_error (replace_nth l i a) i = Some a.
Proof.
  revert i. induction l as [| b l IH]; intros [| i] H; simpl in *; try lia; auto.
  apply IH. lia.
Qed.

Lemma nth_error_replace_nth_other {A} (l : list A) (i j : nat) (a : A) :
  i <> j -> nth_error (replace_nth l i a) j = nth_error l j.
Proof.
  revert i j. induction l as [| b l IH]; intros [| i] [| j] H; simpl; auto.
  - congruence.
Qed.

(** Before boid [k] is processed, the boids after it still hold their
    pre-frame state while every boid before it has already been replaced by
    its integrated update. *)
Lemma process_prefix (s : Sim) (g : grid) (k : nat) (store : list Boid) :
  (k <= length (boids s))%nat ->
  fold_res (process_boid s g) (seq 0 k) (boids s) = Ok store ->
  length store = length (boids s) /\
  (forall j, (k <= j)%nat -> nth_error store j = nth_error (boids s) j) /\
  (forall j, (j < k)%nat -> exists b neighbors,
      nth_error (boids s) j = Some b /\
      nth_error store j = Some (integrate (apply_rules s b neighbors))).
Proof.
  revert store. induction k as [| k IH]; intros store Hk Hrun.
  - simpl in Hrun. injection Hrun as <-. repeat split; intros; try reflexivity; lia.
  - rewrite seq_S, fold_res_app in Hrun. simpl in Hrun.
    destruct (fold_res (process_boid s g) (seq 0 k) (boids s)) as [st |] eqn:Hst;
      simpl in Hrun; [| discriminate].
    destruct (IH st ltac:(lia) eq_refl) as (Hlen & Hsame & Hdone).
    unfold process_boid in Hrun.
    rewrite (Hsame k (le_n k)) in Hrun.
    destruct (nth_error (boids s) k) as [b |] eqn:Hb;
      [| apply nth_error_None in Hb; lia].
    destruct (get_neighbors_with_delay s st k b g) as [nbs |] eqn:Hn;
      simpl in Hrun; [| discriminate].
    injection Hrun as <-.
    repeat split.
    + rewrite replace_nth_length. exact Hlen.
    + intros j Hj. rewrite nth_error_replace_nth_other by lia. apply Hsame. lia.
    + intros j Hj. destruct (Nat.eq_dec j k) as [-> | Hne].
      * exists b, nbs. split; [exact Hb |].
        apply nth_error_replace_nth_same. lia.
      * rewrite nth_error_replace_nth_other by lia. apply Hdone. lia.
Qed.

(** Each boid before [k] was updated from the neighbours its query returned
    on the list as the loop had left it when the boid's turn came. *)
Lemma process_prefix_query (s : Sim) (g : grid) (k : nat) (store : list Boid) :
  (k <= length (boids s))%nat ->
  fold_res (process_boid s g) (seq 0 k) (boids s) = Ok store ->
  forall j, (j < k)%nat -> exists b store_j neighbors,
    nth_error (boids s) j = Some b /\
    fold_res (process_boid s g) (seq 0 j) (boids s) = Ok store_j /\
    get_neighbors_with_delay s store_j j b g = Ok neighbors /\
    nth_error store j = Some (integrate (apply_rules s b neighbors)).
Proof.
  revert store. induction k as [| k IH]; intros store Hk Hrun j Hj; [lia |].
  rewrite seq_S, fold_res_app in Hrun. simpl in Hrun.
  destruct (fold_res (process_boid s g) (seq 0 k) (boids s)) as [st |] eqn:Hst;
    simpl in Hrun; [| discriminate].
  destruct (process_prefix s g k st ltac:(lia) Hst) as (Hlen & Hsame & _).
  unfold process_boid in Hrun.
  rewrite (Hsame k (le_n k)) in Hrun.
  destruct (nth_error (boids s) k) as [b |] eqn:Hb;
    [| apply nth_error_None in Hb; lia].
  destruct (get_neighbors_with_delay s st k b g) as [nbs |] eqn:Hn;
    simpl in Hrun; [| discriminate].
  injection Hrun as <-.
  destruct (Nat.eq_dec j k) as [-> | Hne].
  - exists b, st, nbs. split; [exact Hb |]. split; [exact Hst |]. split; [exact Hn |].
    apply nth_error_replace_nth_same. lia.
  - destruct (IH st ltac:(lia) eq_refl j ltac:(lia)) as (b0 & st0 & nbs0 & H1 & H2 & H3 & H4).
    exists b0, st0, nbs0. split; [exact H1 |]. split; [exact H2 |]. split; [exact H3 |].
    rewrite nth_error_replace_nth_other by lia. exact H4.
Qed.

(** The same for a whole frame, with the grid it built. *)
Lemma update_boids_query (s s' : Sim) :
  update_boids s = Ok s' ->
  exists g, build_grid (cell_size s) (boids s) = Ok g /\
  forall j b', nth_error (boids s') j = Some b' ->
    exists b store neighbors,
      nth_error (boids s) j = Some b /\
      fold_res (process_boid s g) (seq 0 j) (boids s) = Ok store /\
      get_neighbors_with_delay s store j b g = Ok neighbors /\
      b' = integrate (apply_rules s b neighbors).
Proof.
  unfold update_boids. intro H.
  destruct (build_grid (cell_size s) (boids s)) as [g |]; simpl in H; [| discriminate].
  destruct (fold_res (process_boid s g) (seq 0 (length (boids s))) (boids s))
    as [store |] eqn:Hrun; simpl in H; [| discriminate].
  injection H as <-. exists g. split; [reflexivity |]. simpl.
  destruct (process_prefix s g _ store (le_n _) Hrun) as (Hlen & _ & _).
  intros j b' Hj.
  assert (Hlt : (j < length (boids s))%nat).
  { rewrite <- Hlen. apply nth_error_Some. congruence. }
  destruct (process_prefix_query s g _ store (le_n _) Hrun j Hlt)
    as (b & st & nbs & Hb & Hst & Hn & Hs).
  exists b, st, nbs. repeat split; try assumption. congruence.
Qed.

(** Every boid of the next frame is the integrated update of the boid at the
    same index. *)
Lemma update_boids_each (s s' : Sim) :
  update_boids s = Ok s' ->
  length (boids s') = length (boids s) /\
  forall j b', nth_error (boids s') j = Some b' ->
    exists b neighbors, nth_error (boids s) j = Some b /\
      b' = integrate (apply_rules s b neighbors).
Proof.
  unfold update_boids. intro H.
  destruct (build_grid (cell_size s) (boids s)) as [g |]; simpl in H; [| discriminate].
  destruct (fold_res (process_boid s g) (seq 0 (length (boids s))) (boids s))
    as [store |] eqn:Hrun; simpl in H; [| discriminate].
  injection H as <-. simpl.
  destruct (process_prefix s g _ store (le_n _) Hrun) as (Hlen & _ & Hdone).
  split; [exact Hlen |].
  intros j b' Hj.
  assert (Hlt : (j < length (boids s))%nat).
  { rewrite <- Hlen. apply nth_error_Some. congruence. }
  destruct (Hdone j Hlt) as (b & nbs & Hb & Hs).
  exists b, nbs. split; [exact Hb | congruence].
Qed.

(** ** The speed limiter *)

Lemma limit_speed_fast (b : Boid) :
  speed_limit < speed b ->
  limit_speed b = set_velocity b ((dx b / speed b) * speed_limit)
                                 ((dy b / speed b) * speed_limit).
Proof.
  intro H. unfold limit_speed. fold (speed b).
  destruct (Rlt_dec speed_limit (speed b)); [reflexivity | contradiction].
Qed.

Lemma limit_speed_bound (b : Boid) : speed (limit_speed b) <= speed_limit.
Proof.
  destruct (Rlt_dec speed_limit (speed b)) as [H | H].
  - rewrite limit_speed_fast by exact H.
    unfold speed at 1, set_velocity. cbn [dx dy].
    assert (Hsp : 0 < speed b) by (unfold speed_limit in H; lra).
    assert (Hsq : speed b * speed b = dx b * dx b + dy b * dy b).
    { unfold speed. apply sqrt_sqrt.
      nra. }
    replace (dx b / speed b * speed_limit * (dx b / speed b * speed_limit) +
             dy b / speed b * speed_limit * (dy b / speed b * speed_limit))
      with (speed_limit * speed_limit).
    + rewrite sqrt_square; unfold speed_limit; lra.
    + set (sp := speed b) in *.
      transitivity (speed_limit * speed_limit *
                    ((dx b * dx b + dy b * dy b) / (sp * sp))).
      * rewrite <- Hsq. field. lra.
      * field. lra.
  - rewrite limit_speed_slow; [lra |].
    apply Rnot_lt_le in H. unfold speed in H.
    assert (H0 : 0 <= dx b * dx b + dy b * dy b) by nra.
    apply sqrt_le_0; [exact H0 | unfold speed_limit; lra |].
    rewrite sqrt_square; [exact H | unfold speed_limit; lra].
Qed.

Lemma integrate_velocity (b : Boid) :
  dx (integrate b) = dx b /\ dy (integrate b) = dy b.
Proof. split; reflexivity. Qed.

Lemma apply_rules_pre_limit (s : Sim) (b : Boid) (neighbors : list neighbor) :
  apply_rules s b neighbors = limit_speed (pre_limit s b neighbors).
Proof. reflexivity. Qed.

Lemma limit_speed_not_fast (b : Boid) : ~ speed_limit < speed b -> limit_speed b = b.
Proof.
  intro H. unfold limit_speed. fold (speed b).
  destruct (Rlt_dec speed_limit (speed b)); [contradiction | reflexivity].
Qed.

Lemma speed_integrate (b : Boid) : speed (integrate b) = speed b.
Proof. reflexivity. Qed.

(** ** More of the scenario *)

Lemma scenario_flock_A :
  flock_rules boid_A [(1%nat, 10, 0, (-1, 0))] = set_velocity boid_A 0.4725 0.
Proof. unfold flock_rules. run_py. unfold set_velocity. eq_struct. Qed.

Lemma scenario_pre_limit_A :
  pre_limit scenario boid_A [(1%nat, 10, 0, (-1, 0))]
  = set_velocity boid_A 1.4725 1.
Proof.
  unfold pre_limit. rewrite scenario_flock_A. run_py. unfold set_velocity. eq_struct.
Qed.

Lemma scenario_flock_B :
  flock_rules boid_B [(0%nat, 1.4725, 1, (1.4725, 1))]
  = set_velocity boid_B (-0.511824375) 0.00725.
Proof. unfold flock_rules. run_py. unfold set_velocity. eq_struct. Qed.

Lemma scenario_flock_B_frozen :
  flock_rules boid_B [(0%nat, 0, 0, (1, 0))] = set_velocity boid_B (-0.4725) 0.
Proof. unfold flock_rules. run_py. unfold set_velocity. eq_struct. Qed.

Lemma moved_build_grid :
  build_grid 75 [boid_A; boid_B_moved] = Ok scenario_grid.
Proof. unfold build_grid. run_py. reflexivity. Qed.

Lemma moved_neighbors_A :
  get_neighbors_with_delay moved_state [boid_A; boid_B_moved] 0 boid_A scenario_grid
  = Ok [(1%nat, 12, 0, (2, 0))].
Proof. unfold get_neighbors_with_delay. run_py. reflexivity. Qed.

Lemma lone_build_grid : build_grid 75 [boid_A] = Ok lone_grid.
Proof. unfold build_grid. run_py. reflexivity. Qed.

Lemma lone_neighbors :
  get_neighbors_with_delay lone_state [boid_A] 0 boid_A lone_grid = Ok [].
Proof. unfold get_neighbors_with_delay. run_py. reflexivity. Qed.

(** ** Deques *)

Lemma repeat_snoc {A} (a : A) (n : nat) : repeat a n ++ [a] = repeat a (S n).
Proof. induction n as [| n IH]; simpl; [reflexivity | now rewrite IH]. Qed.

Lemma skipn_repeat {A} (a : A) (n k : nat) : skipn k (repeat a n) = repeat a (n - k).
Proof.
  revert n. induction k as [| k IH]; intro n.
  - simpl. now rewrite Nat.sub_0_r.
  - destruct n as [| n]; simpl; [reflexivity | apply IH].
Qed.

Lemma deque_append_length {A} (d : deque A) (a : A) :
  length (items (deque_append d a)) = Nat.min (length (items d) + 1) (maxlen d).
Proof.
  unfold deque_append. simpl. rewrite length_skipn, length_app. simpl. lia.
Qed.

Lemma deque_append_maxlen {A} (d : deque A) (a : A) :
  maxlen (deque_append d a) = maxlen d.
Proof. reflexivity. Qed.

Lemma deque_append_full {A} (d : deque A) (a : A) :
  length (items d) = maxlen d -> (0 < maxlen d)%nat ->
  items (deque_append d a) = tl (items d) ++ [a].
Proof.
  destruct d as [m l]. unfold deque_append. simpl. intros Hl Hm.
  rewrite length_app. simpl.
  replace (length l + 1 - m)%nat with 1%nat by lia.
  destruct l as [| b l]; simpl in *; [lia | reflexivity].
Qed.

Lemma fill_repeat {A} (a : A) (m k : nat) (l : list nat) :
  (k <= m)%nat ->
  fold_left (fun d _ => deque_append d a) l (mk_deque m (repeat a k))
  = mk_deque m (repeat a (Nat.min (k + length l) m)).
Proof.
  revert k. induction l as [| i l IH]; intros k Hk; simpl.
  - f_equal. f_equal. lia.
  - unfold deque_append at 2. simpl. rewrite repeat_snoc, repeat_length, skipn_repeat.
    rewrite IH by lia. f_equal. f_equal. lia.
Qed.

Lemma fill_empty {A} (a : A) (m : nat) (l : list nat) :
  fold_left (fun d _ => deque_append d a) l (mk_deque m [])
  = mk_deque m (repeat a (Nat.min (length l) m)).
Proof. apply (fill_repeat a m 0 l). lia. Qed.

(** [l[-D]] is defined when [1 <= D <= len(l)]. *)
Lemma py_index_neg_ok {A} (l : list A) (D : Z) :
  (1 <= D <= Z.of_nat (length l))%Z -> exists a, py_index l (- D) = Ok a.
Proof.
  intro H. unfold py_index.
  replace (- D <? 0)%Z with true by (symmetry; apply Z.ltb_lt; lia).
  replace ((0 <=? Z.of_nat (length l) + - D) && (Z.of_nat (length l) + - D <? Z.of_nat (length l)))%Z
    with true by (symmetry; apply andb_true_iff; split; [apply Z.leb_le | apply Z.ltb_lt]; lia).
  destruct (nth_error l (Z.to_nat (Z.of_nat (length l) + - D))) as [a |] eqn:E.
  - exists a. reflexivity.
  - apply nth_error_None in E. lia.
Qed.

(** ** Construction *)

Lemma init_boid_fresh (w h : R) (D : Z) (rand : nat -> R) (k : nat) :
  (0 <= D + 1)%Z ->
  exists b, init_boid w h D rand k = Ok b /\ fresh_boid_ok D b.
Proof.
  intro HD. unfold init_boid, new_deque.
  replace (D + 1 <? 0)%Z with false by (symmetry; apply Z.ltb_ge; lia).
  simpl. rewrite !fill_empty, length_seq.
  eexists. split; [reflexivity |].
  unfold fresh_boid_ok. simpl. repeat split. f_equal. lia.
Qed.

Lemma init_boid_err (w h : R) (D : Z) (rand : nat -> R) (k : nat) :
  (D + 1 < 0)%Z -> init_boid w h D rand k = Err ValueError.
Proof.
  intro HD. unfold init_boid, new_deque.
  replace (D + 1 <? 0)%Z with true by (symmetry; apply Z.ltb_lt; lia).
  reflexivity.
Qed.

Lemma fold_res_collect {A B} (f : A -> result B) (P : B -> Prop) (l : list A)
    (acc : list B) :
  (forall a, In a l -> exists b, f a = Ok b /\ P b) ->
  exists bs, fold_res (fun acc a => let* b := f a in Ok (acc ++ [b])) l acc
             = Ok (acc ++ bs) /\ length bs = length l /\ Forall P bs.
Proof.
  revert acc. induction l as [| a l IH]; intros acc Hf.
  - exists []. rewrite app_nil_r. repeat split; constructor.
  - destruct (Hf a (or_introl eq_refl)) as (b & Hb & HP).
    destruct (IH (acc ++ [b]) (fun a' H => Hf a' (or_intror H))) as (bs & Hbs & Hlen & HF).
    exists (b :: bs). simpl. rewrite Hb. simpl. rewrite Hbs, <- app_assoc.
    repeat split; [simpl; lia | constructor; assumption].
Qed.

Lemma set_mode_ok (w h : R) : 0 <= w -> 0 <= h -> set_mode w h = Ok tt.
Proof.
  intros Hw Hh. unfold set_mode.
  destruct (Rlt_dec w 0); [lra |]. destruct (Rlt_dec h 0); [lra | reflexivity].
Qed.

Lemma BoidSimulation_ok (w h : R) (D num : Z) (vr : R) (rand : nat -> R) :
  0 <= w -> 0 <= h -> ~ ((0 < num)%Z /\ (D < -1)%Z) ->
  exists s, BoidSimulation w h D num vr rand = Ok s /\
    length (boids s) = Z.to_nat num /\ Forall (fresh_boid_ok D) (boids s) /\
    perception_delay s = D /\ cell_size s = vr /\ visual_range_sq s = vr * vr /\
    width s = w /\ height s = h.
Proof.
  intros Hw Hh H. unfold BoidSimulation. rewrite set_mode_ok by assumption. simpl.
  destruct (Z_lt_le_dec D (-1)) as [HD | HD].
  - assert (Hn : Z.to_nat num = 0%nat) by lia. rewrite Hn. simpl.
    eexists. split; [reflexivity |]. simpl. repeat split; constructor.
  - destruct (fold_res_collect (init_boid w h D rand) (fresh_boid_ok D)
                (seq 0 (Z.to_nat num)) [])
      as (bs & Hbs & Hlen & HF).
    { intros k _. apply init_boid_fresh. lia. }
    rewrite Hbs. simpl. eexists. split; [reflexivity |]. simpl.
    rewrite length_seq in Hlen. repeat split; assumption.
Qed.

Lemma BoidSimulation_err (w h : R) (D num : Z) (vr : R) (rand : nat -> R) :
  0 <= w -> 0 <= h -> (0 < num)%Z -> (D < -1)%Z ->
  BoidSimulation w h D num vr rand = Err ValueError.
Proof.
  intros Hw Hh Hn HD. unfold BoidSimulation. rewrite set_mode_ok by assumption. simpl.
  destruct (Z.to_nat num) as [| n] eqn:E; [lia |].
  simpl. rewrite init_boid_err by lia. reflexivity.
Qed.

Lemma BoidSimulation_window (w h : R) (D num : Z) (vr : R) (rand : nat -> R) :
  w < 0 \/ h < 0 -> BoidSimulation w h D num vr rand = Err PygameError.
Proof.
  intro H. unfold BoidSimulation, set_mode.
  destruct (Rlt_dec w 0); [reflexivity |].
  destruct (Rlt_dec h 0); [reflexivity | lra].
Qed.

Lemma BoidSimulation_dims (w h : R) (D num : Z) (vr : R) (rand : nat -> R) (s : Sim) :
  BoidSimulation w h D num vr rand = Ok s -> 0 <= w /\ 0 <= h.
Proof.
  intro Hs. destruct (Rlt_dec w 0) as [Hw | Hw]; [| destruct (Rlt_dec h 0) as [Hh | Hh]].
  - rewrite BoidSimulation_window in Hs by lra. discriminate.
  - rewrite BoidSimulation_window in Hs by lra. discriminate.
  - split; lra.
Qed.

(** Evaluates a construction with a non-negative arena. *)
Ltac construct := unfold BoidSimulation; rewrite set_mode_ok by lra; reflexivity.

(** ** Histories across frames *)

Lemma same_place_refl (b : Boid) : same_place b b.
Proof. repeat split. Qed.

Lemma same_place_trans (a b c : Boid) :
  same_place a b -> same_place b c -> same_place a c.
Proof. intros (H1 & H2 & H3 & H4) (H5 & H6 & H7 & H8); repeat split; congruence. Qed.

Lemma set_velocity_place (b : Boid) (vx vy : R) : same_place (set_velocity b vx vy) b.
Proof. repeat split. Qed.

Lemma apply_rules_place (s : Sim) (b : Boid) (neighbors : list neighbor) :
  same_place (apply_rules s b neighbors) b.
Proof.
  unfold apply_rules.
  set (b1 := fly_towards_center b neighbors).
  set (b2 := avoid_others b1 neighbors).
  set (b3 := match_velocity b2 neighbors).
  set (b4 := keep_within_bounds (width s) (height s) b3).
  assert (H1 : same_place b1 b).
  { subst b1. unfold fly_towards_center.
    destruct (fold_left _ neighbors _) as [[cX cY] [| k]];
      [apply same_place_refl | apply set_velocity_place]. }
  assert (H2 : same_place b2 b1).
  { subst b2. unfold avoid_others.
    destruct (fold_left _ neighbors _) as [mX mY]. apply set_velocity_place. }
  assert (H3 : same_place b3 b2).
  { subst b3. unfold match_velocity.
    destruct (fold_left _ neighbors _) as [[aX aY] [| k]];
      [apply same_place_refl | apply set_velocity_place]. }
  assert (H4 : same_place b4 b3) by apply set_velocity_place.
  assert (H5 : same_place (limit_speed b4) b4).
  { unfold limit_speed. destruct (Rlt_dec _ _);
      [apply set_velocity_place | apply same_place_refl]. }
  eapply same_place_trans; [exact H5 |].
  eapply same_place_trans; [exact H4 |].
  eapply same_place_trans; [exact H3 |].
  eapply same_place_trans; [exact H2 | exact H1].
Qed.

Lemma apply_rules_histories (s : Sim) (b : Boid) (neighbors : list neighbor) :
  position_history (apply_rules s b neighbors) = position_history b /\
  velocity_history (apply_rules s b neighbors) = velocity_history b.
Proof.
  destruct (apply_rules_place s b neighbors) as (_ & _ & Hp & Hv). split; assumption.
Qed.

Lemma fresh_history_ok (D : Z) (b : Boid) :
  (0 <= D)%Z -> fresh_boid_ok D b -> history_ok D b.
Proof.
  intros HD (Hp & Hpm & Hv & Hvm). unfold history_ok.
  rewrite Hp, Hv, !repeat_length. repeat split; auto; lia.
Qed.

Lemma integrate_history_ok (D : Z) (s : Sim) (b : Boid) (neighbors : list neighbor) :
  history_ok D b -> history_ok D (integrate (apply_rules s b neighbors)).
Proof.
  destruct (apply_rules_histories s b neighbors) as [Hp Hv].
  intros (Hpm & Hpl & Hvm & Hvl). unfold history_ok, integrate.
  cbn [position_history velocity_history].
  rewrite !deque_append_length, !deque_append_maxlen, Hp, Hv.
  repeat split; try assumption; lia.
Qed.

Lemma update_boids_set (s s' : Sim) :
  update_boids s = Ok s' -> exists store, s' = set_boids s store.
Proof.
  unfold update_boids. intro H.
  destruct (build_grid (cell_size s) (boids s)) as [g |]; simpl in H; [| discriminate].
  destruct (fold_res (process_boid s g) (seq 0 (length (boids s))) (boids s))
    as [store |]; simpl in H; [| discriminate].
  injection H as <-. eexists. reflexivity.
Qed.

Lemma update_boids_history_ok (D : Z) (s s' : Sim) :
  Forall (history_ok D) (boids s) -> update_boids s = Ok s' ->
  Forall (history_ok D) (boids s').
Proof.
  intros HF Hu. destruct (update_boids_each s s' Hu) as [_ Heach].
  apply Forall_forall. intros b' Hin.
  destruct (In_nth_error _ _ Hin) as [j Hj].
  destruct (Heach j b' Hj) as (b & nbs & Hb & ->).
  apply integrate_history_ok.
  rewrite Forall_forall in HF. apply HF. eapply nth_error_In. exact Hb.
Qed.

Lemma run_ticks_history_ok (D : Z) (n : nat) (s s' : Sim) :
  Forall (history_ok D) (boids s) -> run_ticks n s = Ok s' ->
  perception_delay s' = perception_delay s /\ Forall (history_ok D) (boids s').
Proof.
  revert s. induction n as [| n IH]; intros s HF Hrun; simpl in Hrun.
  - injection Hrun as <-. split; [reflexivity | exact HF].
  - destruct (update_boids s) as [s1 |] eqn:Hu; simpl in Hrun; [| discriminate].
    destruct (IH s1 (update_boids_history_ok D s s1 HF Hu) Hrun) as [Hd HF'].
    split; [| exact HF'].
    destruct (update_boids_set s s1 Hu) as [store ->]. exact Hd.
Qed.

Lemma history_ok_reads (D : Z) (b : Boid) :
  (1 <= D <= 99)%Z -> history_ok D b ->
  (D < Z.of_nat (length (items (position_history b))))%Z /\
  (exists p, py_index (items (position_history b)) (- D) = Ok p) /\
  (exists v, py_index (items (velocity_history b)) (- D) = Ok v).
Proof.
  intros HD (Hpm & Hpl & Hvm & Hvl).
  assert (Hmin : Nat.min (Z.to_nat (D + 1)) 100 = Z.to_nat (D + 1)) by lia.
  rewrite Hmin in Hpl.
  repeat split.
  - lia.
  - apply py_index_neg_ok. lia.
  - apply py_index_neg_ok. lia.
Qed.

(** ** Drawing never raises while the delay is positive *)

Lemma fold_res_total {A B} (f : B -> A -> result B) (P : B -> Prop) (l : list A)
    (acc : B) :
  P acc ->
  (forall acc a, In a l -> P acc -> exists acc', f acc a = Ok acc' /\ P acc') ->
  exists r, fold_res f l acc = Ok r /\ P r.
Proof.
  revert acc. induction l as [| a l IH]; intros acc Hacc Hf; simpl.
  - exists acc. split; [reflexivity | exact Hacc].
  - destruct (Hf acc a (or_introl eq_refl) Hacc) as (acc' & Ha & HP).
    rewrite Ha. simpl. apply IH; [exact HP |].
    intros acc0 a0 Hin. apply Hf. right. exact Hin.
Qed.

Lemma fold_res_ok {A B} (f : B -> A -> result B) (l : list A) (acc : B) :
  (forall acc a, In a l -> exists acc', f acc a = Ok acc') ->
  exists r, fold_res f l acc = Ok r.
Proof.
  intro Hf. destruct (fold_res_total f (fun _ => True) l acc I) as (r & Hr & _).
  - intros acc0 a Hin _. destruct (Hf acc0 a Hin) as (acc' & H). exists acc'. auto.
  - exists r. exact Hr.
Qed.

Lemma delayed_marker_total (s : Sim) (b : Boid) :
  (1 <= perception_delay s)%Z -> exists m, delayed_marker s b = Ok m.
Proof.
  intro HD. unfold delayed_marker.
  destruct (perception_delay s <=? Z.of_nat (length (items (position_history b))))%Z
    eqn:Hle; [| eexists; reflexivity].
  apply Z.leb_le in Hle.
  destruct (py_index_neg_ok (items (position_history b)) (perception_delay s)
              ltac:(lia)) as (p & Hp).
  rewrite Hp. simpl.
  destruct (clamp_circle (width s) (height s) (fst p) (snd p) 2). eexists. reflexivity.
Qed.

Lemma draw_total (s : Sim) (show : bool) :
  (1 <= perception_delay s)%Z -> exists r, draw s show = Ok r.
Proof.
  intro HD. unfold draw. apply fold_res_ok. intros acc b _.
  destruct (delayed_marker_total s b HD) as (m & Hm). rewrite Hm. simpl.
  eexists. reflexivity.
Qed.

(** ** Helpers for the claims *)

Lemma get_neighbors_cell (s : Sim) (store : list Boid) (bi : nat) (boid : Boid)
    (g : grid) :
  get_neighbors_with_delay s store bi boid g
  = let* c := cell_of (cell_size s) boid in
    scan_cells s store bi boid g (fst c) (snd c).
Proof.
  unfold get_neighbors_with_delay, cell_of.
  destruct (py_div (x boid) (cell_size s)); [| reflexivity].
  destruct (py_div (y boid) (cell_size s)); reflexivity.
Qed.

Lemma cell_of_zero (b : Boid) : cell_of 0 b = Err ZeroDivisionError.
Proof.
  unfold cell_of, py_div. destruct (Req_EM_T 0 0); [reflexivity | congruence].
Qed.

Lemma rules_no_neighbors (s : Sim) (b : Boid) :
  fly_towards_center b [] = b /\ avoid_others b [] = b /\ match_velocity b [] = b /\
  apply_rules s b [] = limit_speed (keep_within_bounds (width s) (height s) b).
Proof.
  assert (Ha : forall b, avoid_others b [] = b).
  { intros [bx by' bdx bdy ph vh]. unfold avoid_others, set_velocity. simpl.
    rewrite !Rmult_0_l, !Rplus_0_r. reflexivity. }
  repeat split; try reflexivity; try apply Ha.
  unfold apply_rules. simpl. rewrite Ha. reflexivity.
Qed.

(** [update_boids] reads [s] only through the fields of [same_inputs]. *)
Lemma update_boids_same_inputs (s1 s2 : Sim) :
  same_inputs s1 s2 ->
  match update_boids s1, update_boids s2 with
  | Ok a, Ok b => same_inputs a b
  | Err e1, Err e2 => e1 = e2
  | _, _ => False
  end.
Proof.
  destruct s1 as [w h nb vr vrsq cs d bs], s2 as [w' h' nb' vr' vrsq' cs' d' bs'].
  intros (Hw & Hh & Hv & Hc & Hd & Hb). simpl in *. subst.
  unfold update_boids. simpl.
  destruct (build_grid cs' bs') as [g |]; simpl; [| reflexivity].
  change (process_boid (mkSim w' h' nb vr vrsq' cs' d' bs') g)
    with (process_boid (mkSim w' h' nb' vr' vrsq' cs' d' bs') g).
  destruct (fold_res _ _ bs'); simpl; [| reflexivity].
  unfold same_inputs. simpl. repeat split.
Qed.

Lemma run_ticks_same_inputs (n : nat) (s1 s2 : Sim) :
  same_inputs s1 s2 ->
  match run_ticks n s1, run_ticks n s2 with
  | Ok a, Ok b => same_inputs a b
  | Err e1, Err e2 => e1 = e2
  | _, _ => False
  end.
Proof.
  revert s1 s2. induction n as [| n IH]; intros s1 s2 H; simpl; [exact H |].
  pose proof (update_boids_same_inputs s1 s2 H) as Hu.
  destruct (update_boids s1) as [a |], (update_boids s2) as [b |];
    simpl; try contradiction; [apply IH; exact Hu | exact Hu].
Qed.

(** ** The run at rest, frame by frame *)

Lemma still_construct : BoidSimulation 1024 768 1 2 75 still_rand = Ok (still_state 0).
Proof.
  unfold BoidSimulation. rewrite set_mode_ok by lra. run_py. unfold still_state, still_boid.
  simpl. eq_struct.
Qed.

Lemma py_int_300_75 : py_int (300 / 75) = 4%Z.
Proof. rewrite py_int_nonneg by lra. apply floor_unique. simpl. lra. Qed.

Lemma still_grid (n : nat) :
  build_grid 75 [still_boid n; still_boid n] = Ok [((4%Z, 4%Z), [0%nat; 1%nat])].
Proof. unfold build_grid. run_py. rewrite py_int_300_75. run_py. reflexivity. Qed.

(** Evaluate a neighbour query of the run at rest. *)
Ltac still_query := unfold get_neighbors_with_delay, still_grid_val;
  run_py; rewrite py_int_300_75; run_py; reflexivity.

Lemma still_neighbors_0a :
  get_neighbors_with_delay (still_state 0) [still_boid 0; still_boid 0] 0 (still_boid 0)
    still_grid_val = Ok [(1%nat, 300, 300, (0, 0))].
Proof. still_query. Qed.

Lemma still_neighbors_0b :
  get_neighbors_with_delay (still_state 0) [still_boid 1; still_boid 0] 1 (still_boid 0)
    still_grid_val = Ok [(0%nat, 300, 300, (0, 0))].
Proof. still_query. Qed.

Lemma still_neighbors_1a :
  get_neighbors_with_delay (still_state 1) [still_boid 1; still_boid 1] 0 (still_boid 1)
    still_grid_val = Ok [(1%nat, 300, 300, (0, 0))].
Proof. still_query. Qed.

Lemma still_neighbors_1b :
  get_neighbors_with_delay (still_state 1) [still_boid 2; still_boid 1] 1 (still_boid 1)
    still_grid_val = Ok [(0%nat, 300, 300, (0, 0))].
Proof. still_query. Qed.

Lemma still_neighbors_crash :
  get_neighbors_with_delay (key_up (key_up (still_state 2)))
    [still_boid 2; still_boid 2] 0 (still_boid 2) still_grid_val = Err IndexError.
Proof. still_query. Qed.

Lemma still_rules (n : nat) (j : nat) :
  apply_rules (still_state n) (still_boid n) [(j, 300, 300, (0, 0))] = still_boid n.
Proof.
  unfold apply_rules. run_py.
  rewrite limit_speed_slow by (cbv [dx dy speed_limit]; lra).
  unfold still_boid. eq_struct.
Qed.

Lemma still_integrate_0 : integrate (still_boid 0) = still_boid 1.
Proof. unfold still_boid. run_py. eq_struct. Qed.

Lemma still_integrate_1 : integrate (still_boid 1) = still_boid 2.
Proof. unfold still_boid. run_py. eq_struct. Qed.

Lemma still_update_0 : update_boids (still_state 0) = Ok (still_state 1).
Proof.
  unfold update_boids.
  change (cell_size (still_state 0)) with 75.
  change (boids (still_state 0)) with [still_boid 0; still_boid 0].
  rewrite still_grid. fold still_grid_val. cbn [bind fold_res seq length].
  unfold process_boid at 1. cbn [nth_error].
  rewrite still_neighbors_0a. cbn [bind].
  rewrite still_rules, still_integrate_0. cbn [replace_nth].
  unfold process_boid. cbn [nth_error].
  rewrite still_neighbors_0b. cbn [bind].
  rewrite still_rules, still_integrate_0. reflexivity.
Qed.

Lemma still_update_1 : update_boids (still_state 1) = Ok (still_state 2).
Proof.
  unfold update_boids.
  change (cell_size (still_state 1)) with 75.
  change (boids (still_state 1)) with [still_boid 1; still_boid 1].
  rewrite still_grid. fold still_grid_val. cbn [bind fold_res seq length].
  unfold process_boid at 1. cbn [nth_error].
  rewrite still_neighbors_1a. cbn [bind].
  rewrite still_rules, still_integrate_1. cbn [replace_nth].
  unfold process_boid. cbn [nth_error].
  rewrite still_neighbors_1b. cbn [bind].
  rewrite still_rules, still_integrate_1. reflexivity.
Qed.

Lemma still_update_crash : update_boids (key_up (key_up (still_state 2))) = Err IndexError.
Proof.
  unfold update_boids.
  change (cell_size (key_up (key_up (still_state 2)))) with 75.
  change (boids (key_up (key_up (still_state 2)))) with [still_boid 2; still_boid 2].
  rewrite still_grid. fold still_grid_val. cbn [bind fold_res seq length].
  unfold process_boid at 1. cbn [nth_error].
  rewrite still_neighbors_crash. reflexivity.
Qed.

Lemma still_frame (n : nat) :
  update_boids (still_state n) = Ok (still_state (S n)) ->
  frame (start (still_state n)) [] = Ok (start (still_state (S n))).
Proof.
  intro Hu. unfold frame, start. simpl fold_left. cbn [sim show_trajectories running].
  rewrite Hu. cbn [bind].
  destruct (draw_total (still_state (S n)) false ltac:(simpl; lia)) as (r & Hr).
  rewrite Hr. reflexivity.
Qed.

Lemma still_run :
  run_loop [[]; []; [KEYDOWN K_UP; KEYDOWN K_UP]] (start (still_state 0)) = Err IndexError.
Proof.
  cbn [run_loop running start].
  rewrite (still_frame 0 still_update_0). cbn [bind run_loop running start].
  rewrite (still_frame 1 still_update_1). cbn [bind run_loop running start].
  unfold frame. cbn [fold_left handle_event sim show_trajectories running start].
  rewrite still_update_crash. reflexivity.
Qed.

(** ** The fast boid's frame *)

Lemma fast_grid : build_grid 75 [boid_F] = Ok [((0%Z, 0%Z), [0%nat])].
Proof. unfold build_grid. run_py. reflexivity. Qed.

Lemma fast_neighbors :
  get_neighbors_with_delay fast_state [boid_F] 0 boid_F [((0%Z, 0%Z), [0%nat])] = Ok [].
Proof. unfold get_neighbors_with_delay. run_py. reflexivity. Qed.

Lemma fast_pre_limit :
  pre_limit fast_state boid_F [] = set_velocity boid_F 12 16.
Proof. unfold pre_limit, flock_rules. run_py. unfold set_velocity. eq_struct. Qed.

Lemma fast_speed : speed (set_velocity boid_F 12 16) = 20.
Proof.
  unfold speed. cbn [dx dy set_velocity].
  replace (12 * 12 + 16 * 16) with (20 * 20) by lra.
  apply sqrt_square. lra.
Qed.

Lemma fast_rules : apply_rules fast_state boid_F [] = set_velocity boid_F 6 8.
Proof.
  rewrite apply_rules_pre_limit, fast_pre_limit.
  rewrite limit_speed_fast by (rewrite fast_speed; unfold speed_limit; lra).
  rewrite fast_speed. unfold set_velocity. cbn [dx dy]. unfold speed_limit. eq_struct.
Qed.

Lemma fast_integrate : integrate (set_velocity boid_F 6 8) = boid_F1.
Proof. unfold boid_F1. run_py. eq_struct. Qed.

Lemma fast_update : update_boids fast_state = Ok (set_boids fast_state [boid_F1]).
Proof.
  unfold update_boids.
  change (cell_size fast_state) with 75. change (boids fast_state) with [boid_F].
  rewrite fast_grid. cbn [bind fold_res seq length].
  unfold process_boid. cbn [nth_error].
  rewrite fast_neighbors. cbn [bind].
  rewrite fast_rules, fast_integrate. reflexivity.
Qed.

(** * The claims *)

(** C1 (the delayed read): with delay 1, the neighbour query reads
    [position_history[-1]], the most recent sample, which is [B]'s current
    position (12,0); the spec's [delayed(1)], index [length - 1 - 1], is the
    sample one frame earlier, (10,0). *)
Theorem delayed_read_is_latest_sample :
  build_grid 75 [boid_A; boid_B_moved] = Ok scenario_grid /\
  get_neighbors_with_delay moved_state [boid_A; boid_B_moved] 0 boid_A scenario_grid
    = Ok [(1%nat, 12, 0, (2, 0))] /\
  py_index (items (position_history boid_B_moved)) (- perception_delay moved_state)
    = Ok (12, 0) /\
  spec_delayed (items (position_history boid_B_moved)) 1 = Some (10, 0).
Proof.
  split; [exact moved_build_grid |].
  split; [exact moved_neighbors_A |].
  split; reflexivity.
Qed.

(** C2 (counterexample): on the two-boid scenario the in-place loop of
    [update_boids] and the compute-then-commit update give different states:
    [B] reads the sample [A] appended earlier in the same frame. *)
Lemma sequential_update_differs_from_two_phase :
  update_boids scenario <> update_boids_two_phase scenario.
Proof.
  rewrite scenario_update, scenario_update_two_phase. intro H.
  apply (f_equal (fun r => match r with Ok s => map dx (boids s) | Err _ => [] end))
    in H.
  cbn in H. injection H as Hdx. lra.
Qed.

(** C2 (amended): the grid is built once from the pre-frame positions, then
    boids are updated in place in list order. Before boid [k] is processed,
    the boids after it hold their pre-frame state, the boids before it have
    already committed their integrated update (position, velocity and
    history appends), and boid [k]'s neighbour query reads that partially
    updated list. *)
Theorem update_boids_in_place (s : Sim) (g : grid) (k : nat) (store : list Boid) :
  build_grid (cell_size s) (boids s) = Ok g ->
  (k < length (boids s))%nat ->
  fold_res (process_boid s g) (seq 0 k) (boids s) = Ok store ->
  (forall j, (k <= j)%nat -> nth_error store j = nth_error (boids s) j) /\
  (forall j, (j < k)%nat -> exists b neighbors,
      nth_error (boids s) j = Some b /\
      nth_error store j = Some (integrate (apply_rules s b neighbors))) /\
  (exists b, nth_error (boids s) k = Some b /\
     process_boid s g store k
     = let* neighbors := get_neighbors_with_delay s store k b g in
       Ok (replace_nth store k (integrate (apply_rules s b neighbors)))).
Proof.
  intros _ Hk Hrun.
  destruct (process_prefix s g k store ltac:(lia) Hrun) as (Hlen & Hsame & Hdone).
  split; [exact Hsame | split; [exact Hdone |]].
  destruct (nth_error (boids s) k) as [b |] eqn:Hb;
    [| apply nth_error_None in Hb; lia].
  exists b. split; [reflexivity |].
  unfold process_boid. rewrite (Hsame k (le_n k)), Hb. reflexivity.
Qed.

Lemma update_boids_in_place_witness :
  build_grid (cell_size scenario) (boids scenario) = Ok scenario_grid /\
  fold_res (process_boid scenario scenario_grid) (seq 0 1) (boids scenario)
    = Ok [boid_A1; boid_B] /\
  nth_error [boid_A1; boid_B] 1 = Some boid_B.
Proof.
  assert (Hg : build_grid (cell_size scenario) (boids scenario) = Ok scenario_grid)
    by exact scenario_build_grid.
  assert (Hrun : fold_res (process_boid scenario scenario_grid) (seq 0 1)
                   (boids scenario) = Ok [boid_A1; boid_B]).
  { simpl. unfold process_boid. simpl.
    rewrite scenario_neighbors_A. simpl.
    rewrite scenario_rules_A, scenario_integrate_A. reflexivity. }
  split; [exact Hg | split; [exact Hrun |]].
  destruct (update_boids_in_place scenario scenario_grid 1 [boid_A1; boid_B]
              Hg ltac:(simpl; lia) Hrun) as (Hsame & _ & _).
  rewrite (Hsame 1%nat (le_n 1)). reflexivity.
Defined.

(** C3 (counterexample): in the scenario, [A]'s x-velocity after the three
    rules is not about 0.45 (it exceeds it by more than 0.02), and boundary
    steering is not a no-op for [A]. *)
Lemma scenario_expected_values_fail :
  get_neighbors_with_delay scenario [boid_A; boid_B] 0 boid_A scenario_grid
    = Ok [(1%nat, 10, 0, (-1, 0))] /\
  dx (flock_rules boid_A [(1%nat, 10, 0, (-1, 0))]) - 0.45 > 0.02 /\
  dx (pre_limit scenario boid_A [(1%nat, 10, 0, (-1, 0))])
    <> dx (flock_rules boid_A [(1%nat, 10, 0, (-1, 0))]).
Proof.
  split; [exact scenario_neighbors_A |].
  rewrite scenario_pre_limit_A, scenario_flock_A.
  split; simpl; lra.
Qed.

(** C3 (amended): in the first frame [A]'s velocity after cohesion,
    separation and alignment is (0.4725, 0), with
    0.4725 = 1 + 0.05 - 0.5 + (-1 - 0.55) * 0.05: alignment reads the
    velocity the other two rules left. Boundary steering is not a no-op: [A]
    lies in the margin and it adds 1 to both components, and the limiter
    leaves the resulting (1.4725, 1) unchanged. With the delayed read of the
    design (index [length - 1 - D]), [B], processed after [A], reads [A]'s
    sample from before the frame, position (0, 0) and velocity (1, 0), and
    its velocity after the three rules is the mirror image (-0.4725, 0). *)
Theorem scenario_first_frame :
  update_boids scenario = Ok (set_boids scenario [boid_A1; boid_B1]) /\
  get_neighbors_with_delay scenario [boid_A; boid_B] 0 boid_A scenario_grid
    = Ok [(1%nat, 10, 0, (-1, 0))] /\
  dx (flock_rules boid_A [(1%nat, 10, 0, (-1, 0))])
    = 1 + 0.05 - 0.5 + (-1 - (1 + 0.05 - 0.5)) * 0.05 /\
  dx (flock_rules boid_A [(1%nat, 10, 0, (-1, 0))]) = 0.4725 /\
  dy (flock_rules boid_A [(1%nat, 10, 0, (-1, 0))]) = 0 /\
  dx (pre_limit scenario boid_A [(1%nat, 10, 0, (-1, 0))]) = 1.4725 /\
  dy (pre_limit scenario boid_A [(1%nat, 10, 0, (-1, 0))]) = 1 /\
  dx boid_A1 = 1.4725 /\ dy boid_A1 = 1 /\
  spec_delayed (items (position_history boid_A1)) 1 = Some (0, 0) /\
  spec_delayed (items (velocity_history boid_A1)) 1 = Some (1, 0) /\
  dx (flock_rules boid_B [(0%nat, 0, 0, (1, 0))]) = -0.4725 /\
  dy (flock_rules boid_B [(0%nat, 0, 0, (1, 0))]) = 0.
Proof.
  split; [exact scenario_update |].
  split; [exact scenario_neighbors_A |].
  rewrite scenario_pre_limit_A, scenario_flock_A, scenario_flock_B_frozen. simpl.
  split; [lra |].
  repeat split; reflexivity.
Qed.

(** C4 (counterexample): a boid at (-1, -1) with cell size 75 is put in cell
    (0, 0), while floor(-1/75) = -1. *)
Lemma cell_of_negative_not_floor :
  cell_of 75 (mkBoid (-1) (-1) 0 0 (mk_deque 100 []) (mk_deque 2 [])) = Ok (0%Z, 0%Z) /\
  floor (-1 / 75) = (-1)%Z.
Proof.
  split.
  - rewrite cell_of_ok by lra. simpl. rewrite py_int_zero by lra. reflexivity.
  - apply floor_unique. lra.
Qed.

(** C4 (amended): the cell is [(int(x / cellSize), int(y / cellSize))] with
    Python's [int()], which truncates toward zero: floor for a non-negative
    quotient, minus the floor of the negated quotient (the ceiling) for a
    negative one, so cell 0 covers the open interval (-cellSize, cellSize).
    The neighbour query computes the boid's own cell the same way, and a
    zero cell size raises [ZeroDivisionError]. *)
Theorem cell_of_truncates (cs : R) (b : Boid) :
  (cs <> 0 -> cell_of cs b = Ok (py_int (x b / cs), py_int (y b / cs))) /\
  (cs = 0 -> cell_of cs b = Err ZeroDivisionError) /\
  (forall r, 0 <= r -> py_int r = floor r) /\
  (forall r, r < 0 -> py_int r = (- floor (- r))%Z) /\
  (0 < cs -> - cs < x b < cs -> - cs < y b < cs -> cell_of cs b = Ok (0%Z, 0%Z)) /\
  (forall s store bi g, cell_size s = cs ->
     get_neighbors_with_delay s store bi b g
     = let* c := cell_of cs b in scan_cells s store bi b g (fst c) (snd c)).
Proof.
  split; [apply cell_of_ok |].
  split; [intros ->; apply cell_of_zero |].
  split; [apply py_int_nonneg |].
  split; [apply py_int_neg |].
  split.
  - intros Hcs Hx Hy.
    assert (Hq : forall t, - cs < t < cs -> -1 < t / cs < 1).
    { intros t Ht. unfold Rdiv.
      split; apply (Rmult_lt_reg_r cs); try lra;
        rewrite Rmult_assoc, Rinv_l by lra; lra. }
    rewrite cell_of_ok by lra.
    rewrite !py_int_zero by (apply Hq; assumption). reflexivity.
  - intros s store bi g <-. apply get_neighbors_cell.
Qed.

Lemma cell_of_truncates_witness :
  cell_of 75 (mkBoid (-1) 74 0 0 (mk_deque 100 []) (mk_deque 2 [])) = Ok (0%Z, 0%Z).
Proof.
  destruct (cell_of_truncates 75 (mkBoid (-1) 74 0 0 (mk_deque 100 []) (mk_deque 2 [])))
    as (_ & _ & _ & _ & H & _).
  apply H; simpl; lra.
Defined.

(** C5 (counterexample): a delay of 0 with visual range 0, and an agent
    count of -1, are constructed without any error. *)
Lemma construction_accepts_invalid_config :
  (exists s, BoidSimulation 1024 768 0 1 0 (fun _ => 0) = Ok s /\
             perception_delay s = 0%Z /\ cell_size s = 0) /\
  (exists s, BoidSimulation 1024 768 1 (-1) 75 (fun _ => 0) = Ok s /\ boids s = []).
Proof.
  split.
  - destruct (BoidSimulation_ok 1024 768 0 1 0 (fun _ => 0) ltac:(lra) ltac:(lra) ltac:(lia))
      as (s & Hs & _ & _ & Hd & Hc & _).
    exists s. repeat split; assumption.
  - destruct (BoidSimulation_ok 1024 768 1 (-1) 75 (fun _ => 0) ltac:(lra) ltac:(lra) ltac:(lia))
      as (s & Hs & Hlen & _).
    exists s. split; [exact Hs |]. apply length_zero_iff_nil. exact Hlen.
Qed.

(** C5 (amended): construction validates no configuration value and has
    no configuration error. A negative arena width or height makes
    [pygame.display.set_mode] raise [pygame.error] before any boid is
    created; otherwise, if at least one boid is created with a delay below
    -1, [deque(maxlen=delay+1)] raises [ValueError]. Every other
    configuration is accepted, whatever the visual range, delay or agent
    count (a zero arena included), and yields [max(0, count)] boids. *)
Theorem construction_unvalidated (w h : R) (D num : Z) (vr : R) (rand : nat -> R) :
  (forall e, BoidSimulation w h D num vr rand = Err e ->
     (e = PygameError /\ (w < 0 \/ h < 0)) \/
     (e = ValueError /\ 0 <= w /\ 0 <= h /\ (0 < num)%Z /\ (D < -1)%Z)) /\
  (w < 0 \/ h < 0 -> BoidSimulation w h D num vr rand = Err PygameError) /\
  (0 <= w -> 0 <= h -> (0 < num)%Z -> (D < -1)%Z ->
     BoidSimulation w h D num vr rand = Err ValueError) /\
  (0 <= w -> 0 <= h -> ~ ((0 < num)%Z /\ (D < -1)%Z) ->
     exists s, BoidSimulation w h D num vr rand = Ok s /\
       length (boids s) = Z.to_nat num /\ perception_delay s = D /\
       cell_size s = vr /\ width s = w /\ height s = h).
Proof.
  split; [| split; [| split]].
  - intros e He.
    destruct (Rlt_dec w 0) as [Hw | Hw]; [| destruct (Rlt_dec h 0) as [Hh | Hh]].
    + rewrite BoidSimulation_window in He by lra. injection He as <-. auto.
    + rewrite BoidSimulation_window in He by lra. injection He as <-. auto.
    + apply Rnot_lt_le in Hw, Hh. right.
      destruct (Z_lt_le_dec 0 num) as [Hn | Hn];
        [destruct (Z_lt_le_dec D (-1)) as [HD | HD] |].
      * rewrite BoidSimulation_err in He by assumption. injection He as <-. auto.
      * destruct (BoidSimulation_ok w h D num vr rand Hw Hh ltac:(lia)) as (s & Hs & _).
        congruence.
      * destruct (BoidSimulation_ok w h D num vr rand Hw Hh ltac:(lia)) as (s & Hs & _).
        congruence.
  - apply BoidSimulation_window.
  - apply BoidSimulation_err.
  - intros Hw Hh H. destruct (BoidSimulation_ok w h D num vr rand Hw Hh H)
      as (s & Hs & Hlen & _ & Hd & Hc & _ & Hw' & Hh').
    exists s. repeat split; assumption.
Qed.

Lemma construction_unvalidated_witness :
  BoidSimulation (-1) 768 1 2 75 (fun _ => 0) = Err PygameError /\
  BoidSimulation 1024 768 (-2) 1 75 (fun _ => 0) = Err ValueError /\
  exists s, BoidSimulation 0 0 0 2 0 (fun _ => 0) = Ok s /\ length (boids s) = 2%nat.
Proof.
  split; [| split].
  - destruct (construction_unvalidated (-1) 768 1 2 75 (fun _ => 0)) as (_ & H & _).
    apply H. left. lra.
  - destruct (construction_unvalidated 1024 768 (-2) 1 75 (fun _ => 0)) as (_ & _ & H & _).
    apply H; [lra | lra | lia | lia].
  - destruct (construction_unvalidated 0 0 0 2 0 (fun _ => 0)) as (_ & _ & _ & H).
    destruct (H ltac:(lra) ltac:(lra) ltac:(lia)) as (s & Hs & Hlen & _).
    exists s. split; [exact Hs | exact Hlen].
Defined.

(** C6 (a delay beyond the capacity): [run] clamps the delay to [1, 10]
    but never checks it against the velocity histories, whose capacity stays
    [perception_delay + 1] from construction. With the default window, delay
    1 and two boids at rest at (300, 300), two frames run; two presses of the
    up key then set the delay to 3 (the keys reach 10) while every velocity
    history holds 2 samples, and the next frame raises [IndexError] reading
    [velocity_history[-3]] of a neighbour. *)
Theorem delay_keys_outrun_capacity :
  BoidSimulation 1024 768 1 2 75 still_rand = Ok (still_state 0) /\
  run_loop [[]; []] (start (still_state 0)) = Ok (start (still_state 2)) /\
  perception_delay (key_up (key_up (still_state 2))) = 3%Z /\
  perception_delay (Nat.iter 9 key_up (still_state 2)) = 10%Z /\
  Forall (fun b => maxlen (velocity_history b) = 2%nat /\
                   length (items (velocity_history b)) = 2%nat /\
                   length (items (position_history b)) = 4%nat)
    (boids (key_up (key_up (still_state 2)))) /\
  update_boids (key_up (key_up (still_state 2))) = Err IndexError /\
  run_loop [[]; []; [KEYDOWN K_UP; KEYDOWN K_UP]] (start (still_state 0)) = Err IndexError.
Proof.
  split; [exact still_construct |].
  split.
  { cbn [run_loop running start].
    rewrite (still_frame 0 still_update_0). cbn [bind run_loop running start].
    rewrite (still_frame 1 still_update_1). reflexivity. }
  split; [reflexivity |]. split; [reflexivity |].
  split; [repeat constructor |].
  split; [exact still_update_crash | exact still_run].
Qed.

(** C7: after a frame every boid's speed is at most [speed_limit]. Its
    velocity is the limiter's output on the velocity that boundary steering
    left after the three rules, computed from the neighbours the query
    returned when the boid's turn came; when that velocity was faster than
    the limit, both of its components were scaled by the same positive
    factor [speed_limit / speed], so the direction is kept; otherwise the
    velocity is unchanged. *)
Theorem speed_bound_after_update (s s' : Sim) :
  update_boids s = Ok s' ->
  exists g, build_grid (cell_size s) (boids s) = Ok g /\
  forall j b', nth_error (boids s') j = Some b' ->
    exists b store neighbors,
      nth_error (boids s) j = Some b /\
      fold_res (process_boid s g) (seq 0 j) (boids s) = Ok store /\
      get_neighbors_with_delay s store j b g = Ok neighbors /\
      speed b' <= speed_limit /\
      (~ speed_limit < speed (pre_limit s b neighbors) ->
         dx b' = dx (pre_limit s b neighbors) /\ dy b' = dy (pre_limit s b neighbors)) /\
      (speed_limit < speed (pre_limit s b neighbors) ->
         0 < speed_limit / speed (pre_limit s b neighbors) /\
         dx b' = speed_limit / speed (pre_limit s b neighbors) * dx (pre_limit s b neighbors) /\
         dy b' = speed_limit / speed (pre_limit s b neighbors) * dy (pre_limit s b neighbors)).
Proof.
  intro Hu.
  destruct (update_boids_query s s' Hu) as (g & Hg & Heach).
  exists g. split; [exact Hg |].
  intros j b' Hj.
  destruct (Heach j b' Hj) as (b & st & nbs & Hb & Hst & Hn & ->).
  exists b, st, nbs. split; [exact Hb |]. split; [exact Hst |]. split; [exact Hn |].
  rewrite apply_rules_pre_limit.
  set (p := pre_limit s b nbs).
  split; [rewrite speed_integrate; apply limit_speed_bound |].
  split.
  - intro H. rewrite (limit_speed_not_fast p H). split; reflexivity.
  - intro H. rewrite (limit_speed_fast p H). cbn [integrate dx dy set_velocity].
    assert (Hsp : 0 < speed p) by (unfold speed_limit in H; lra).
    split; [apply Rdiv_lt_0_compat; unfold speed_limit; lra |].
    split; unfold Rdiv; ring.
Qed.

(** The fast boid: its query returns no neighbour, the velocity handed to the
    limiter is (12, 16) of speed 20, and the frame leaves (6, 8), half of it. *)
Lemma speed_bound_after_update_witness :
  update_boids fast_state = Ok (set_boids fast_state [boid_F1]) /\
  speed boid_F1 <= speed_limit /\
  speed_limit < speed (pre_limit fast_state boid_F []) /\
  speed_limit / speed (pre_limit fast_state boid_F []) = 1 / 2 /\
  dx boid_F1 = 1 / 2 * 12 /\ dy boid_F1 = 1 / 2 * 16.
Proof.
  destruct (speed_bound_after_update fast_state _ fast_update) as (g & Hg & H).
  destruct (H 0%nat boid_F1 eq_refl) as (b & st & nbs & Hb & Hst & Hn & Hsp & _ & Hfast).
  cbn in Hb. injection Hb as <-. cbn in Hst. injection Hst as <-.
  cbn [cell_size boids fast_state] in Hg. rewrite fast_grid in Hg. injection Hg as <-.
  rewrite fast_neighbors in Hn. injection Hn as <-.
  rewrite fast_pre_limit, fast_speed in *.
  assert (Hl : speed_limit < 20) by (unfold speed_limit; lra).
  destruct (Hfast Hl) as (_ & Hx & Hy).
  split; [exact fast_update |]. split; [exact Hsp |]. split; [exact Hl |].
  split; [unfold speed_limit; field |].
  cbn [dx dy set_velocity boid_F] in Hx, Hy.
  unfold speed_limit in Hx, Hy.
  split; [rewrite Hx; field | rewrite Hy; field].
Defined.

(** C8: with an empty neighbour list cohesion, separation and alignment
    leave the boid unchanged, so its new velocity is the speed-limited
    boundary-steered old one; in [update_boids] a boid whose query returns
    no neighbour is updated exactly that way. *)
Theorem isolated_boid_update (s : Sim) (b : Boid) :
  fly_towards_center b [] = b /\ avoid_others b [] = b /\ match_velocity b [] = b /\
  apply_rules s b [] = limit_speed (keep_within_bounds (width s) (height s) b) /\
  (forall g store i,
     nth_error store i = Some b -> get_neighbors_with_delay s store i b g = Ok [] ->
     process_boid s g store i
     = Ok (replace_nth store i
             (integrate (limit_speed (keep_within_bounds (width s) (height s) b))))).
Proof.
  destruct (rules_no_neighbors s b) as (H1 & H2 & H3 & H4).
  split; [exact H1 | split; [exact H2 | split; [exact H3 | split; [exact H4 |]]]].
  intros g store i Hi Hn. unfold process_boid. rewrite Hi, Hn. simpl.
  rewrite H4. reflexivity.
Qed.

Lemma isolated_boid_update_witness :
  process_boid lone_state lone_grid [boid_A] 0
  = Ok [integrate (limit_speed (keep_within_bounds 1024 768 boid_A))].
Proof.
  destruct (isolated_boid_update lone_state boid_A) as (_ & _ & _ & _ & H).
  apply (H lone_grid [boid_A] 0%nat eq_refl lone_neighbors).
Defined.

(** C9 (counterexample): with delay 100 the position history is created
    with 100 samples, not delay + 1 = 101, since its capacity is 100. *)
Lemma position_history_capped_at_100 :
  exists s, BoidSimulation 1024 768 100 1 75 (fun _ => 0) = Ok s /\
    Exists (fun b => length (items (position_history b)) = 100%nat /\
                     length (items (velocity_history b)) = 101%nat) (boids s).
Proof.
  destruct (BoidSimulation_ok 1024 768 100 1 75 (fun _ => 0) ltac:(lra) ltac:(lra) ltac:(lia))
    as (s & Hs & Hlen & HF & _).
  exists s. split; [exact Hs |].
  destruct (boids s) as [| b bs]; [discriminate |].
  apply Exists_cons_hd. inversion HF as [| ? ? (Hp & _ & Hv & _) _]; subst.
  rewrite Hp, Hv, !repeat_length. split; reflexivity.
Qed.

(** C9 (amended): for a delay D >= 0, a deque [append] never exceeds the
    capacity and, at capacity, drops the oldest sample before appending; at
    construction every boid's velocity history holds D + 1 copies of its
    initial velocity (capacity D + 1) and its position history
    min(D + 1, 100) copies of its initial position (capacity 100). Through
    any number of frames the capacities are kept, the velocity history keeps
    D + 1 samples and the position history at least min(D + 1, 100); so for
    1 <= D <= 99 the guard [len(position_history) > D] holds and both reads
    [history[-D]] are defined in every frame. *)
Theorem history_buffers_bounded (w h : R) (D num : Z) (vr : R) (rand : nat -> R)
    (s : Sim) :
  (0 <= D)%Z ->
  BoidSimulation w h D num vr rand = Ok s ->
  (forall (d : deque (R * R)) (a : R * R), (length (items d) <= maxlen d)%nat ->
     (length (items (deque_append d a)) <= maxlen d)%nat /\
     maxlen (deque_append d a) = maxlen d /\
     (length (items d) = maxlen d -> (0 < maxlen d)%nat ->
        items (deque_append d a) = tl (items d) ++ [a])) /\
  Forall (fresh_boid_ok D) (boids s) /\
  (forall n s', run_ticks n s = Ok s' ->
     perception_delay s' = D /\ Forall (history_ok D) (boids s') /\
     ((1 <= D <= 99)%Z ->
        Forall (fun b =>
          (D < Z.of_nat (length (items (position_history b))))%Z /\
          (exists p, py_index (items (position_history b)) (- D) = Ok p) /\
          (exists v, py_index (items (velocity_history b)) (- D) = Ok v)) (boids s'))).
Proof.
  intros HD Hs.
  destruct (BoidSimulation_ok w h D num vr rand
      (proj1 (BoidSimulation_dims _ _ _ _ _ _ _ Hs))
      (proj2 (BoidSimulation_dims _ _ _ _ _ _ _ Hs)) ltac:(lia))
    as (s0 & Hs0 & _ & HF & Hd & _).
  rewrite Hs0 in Hs. injection Hs as <-.
  split.
  { intros d a Hl. rewrite deque_append_length, deque_append_maxlen.
    split; [lia | split; [reflexivity | apply deque_append_full]]. }
  split; [exact HF |].
  intros n s' Hrun.
  assert (HF0 : Forall (history_ok D) (boids s0)).
  { eapply Forall_impl; [| exact HF]. intros b. apply fresh_history_ok. exact HD. }
  destruct (run_ticks_history_ok D n s0 s' HF0 Hrun) as [Hd' HF'].
  split; [congruence |]. split; [exact HF' |].
  intro HD'. eapply Forall_impl; [| exact HF'].
  intros b. apply history_ok_reads. exact HD'.
Qed.

Lemma history_buffers_bounded_witness :
  exists s, BoidSimulation 1024 768 1 2 75 (fun _ => 0) = Ok s /\
    Forall (fresh_boid_ok 1) (boids s).
Proof.
  eexists. split; [construct |].
  refine (proj1 (proj2 (history_buffers_bounded 1024 768 1 2 75 (fun _ => 0) _
                          ltac:(lia) _))).
  construct.
Defined.

(** C10: [update_boids] draws no random numbers and reads the simulation
    only through its arena size, visual range, cell size, delay and boid
    list, whose grid and neighbour iteration orders are fixed; two runs of
    [n] frames from states agreeing on those inputs end in the same boids,
    or fail with the same error. *)
Theorem update_deterministic (n : nat) (s1 s2 : Sim) :
  same_inputs s1 s2 ->
  match run_ticks n s1, run_ticks n s2 with
  | Ok a, Ok b => boids a = boids b /\ same_inputs a b
  | Err e1, Err e2 => e1 = e2
  | _, _ => False
  end.
Proof.
  intro H. pose proof (run_ticks_same_inputs n s1 s2 H) as Hr.
  destruct (run_ticks n s1), (run_ticks n s2); try exact Hr.
  split; [apply Hr | exact Hr].
Qed.

Lemma update_deterministic_witness :
  match run_ticks 1 scenario, run_ticks 1 (mkSim 1024 768 7 0 (75 * 75) 75 1 [boid_A; boid_B]) with
  | Ok a, Ok b => boids a = boids b /\ same_inputs a b
  | Err e1, Err e2 => e1 = e2
  | _, _ => False
  end.
Proof.
  refine (update_deterministic 1 scenario
            (mkSim 1024 768 7 0 (75 * 75) 75 1 [boid_A; boid_B]) _).
  unfold same_inputs. cbn [width height visual_range_sq cell_size perception_delay
    boids scenario]. repeat split.
Defined.

(** * Further properties of the code *)

(** ** Loops that may raise *)

Lemma fold_res_inv {A B} (f : B -> A -> result B) (P : B -> Prop) (l : list A)
    (acc r : B) :
  P acc -> (forall acc a acc', In a l -> P acc -> f acc a = Ok acc' -> P acc') ->
  fold_res f l acc = Ok r -> P r.
Proof.
  revert acc. induction l as [| a l IH]; intros acc Hacc Hf Hr; simpl in Hr.
  - injection Hr as <-. exact Hacc.
  - destruct (f acc a) as [acc' |] eqn:Ha; simpl in Hr; [| discriminate].
    apply (IH acc'); [exact (Hf acc a acc' (or_introl eq_refl) Hacc Ha) | | exact Hr].
    intros acc0 a0 acc1 Hin. apply Hf. right. exact Hin.
Qed.

Lemma fold_res_err {A B} (f : B -> A -> result B) (P : exn -> Prop) (l : list A)
    (acc : B) (e : exn) :
  (forall acc a e, In a l -> f acc a = Err e -> P e) ->
  fold_res f l acc = Err e -> P e.
Proof.
  revert acc. induction l as [| a l IH]; intros acc Hf Hr; simpl in Hr; [discriminate |].
  destruct (f acc a) as [acc' |] eqn:Ha; simpl in Hr.
  - apply (IH acc'); [| exact Hr]. intros acc0 a0 e0 Hin. apply Hf. right. exact Hin.
  - injection Hr as <-. exact (Hf acc a e0 (or_introl eq_refl) Ha).
Qed.

(** ** Indexing and [int()] *)

Lemma py_index_err {A} (l : list A) (i : Z) (e : exn) :
  py_index l i = Err e -> e = IndexError.
Proof.
  unfold py_index. destruct (_ && _)%bool; [| congruence].
  destruct (nth_error _ _); congruence.
Qed.

Lemma py_index_neg_err {A} (l : list A) (D : Z) :
  (0 < D)%Z -> (Z.of_nat (length l) < D)%Z -> py_index l (- D) = Err IndexError.
Proof.
  intros H1 H2. unfold py_index.
  replace (- D <? 0)%Z with true by (symmetry; apply Z.ltb_lt; lia).
  replace (0 <=? Z.of_nat (length l) + - D)%Z with false
    by (symmetry; apply Z.leb_gt; lia).
  reflexivity.
Qed.

Lemma py_index_pos_err {A} (l : list A) (i : Z) :
  (0 <= i)%Z -> (Z.of_nat (length l) <= i)%Z -> py_index l i = Err IndexError.
Proof.
  intros H1 H2. unfold py_index.
  replace (i <? 0)%Z with false by (symmetry; apply Z.ltb_ge; lia).
  replace (i <? Z.of_nat (length l))%Z with false by (symmetry; apply Z.ltb_ge; lia).
  rewrite andb_false_r. reflexivity.
Qed.

Lemma py_index_zero {A} (a : A) (l : list A) : py_index (a :: l) 0 = Ok a.
Proof.
  unfold py_index. simpl.
  replace (0 <? Z.of_nat (S (length l)))%Z with true by (symmetry; apply Z.ltb_lt; lia).
  reflexivity.
Qed.

Lemma py_index_neg_length {A} (a : A) (l : list A) :
  py_index (a :: l) (- Z.of_nat (length (a :: l))) = Ok a.
Proof.
  unfold py_index.
  replace (- Z.of_nat (length (a :: l)) <? 0)%Z with true
    by (symmetry; apply Z.ltb_lt; simpl; lia).
  replace (Z.of_nat (length (a :: l)) + - Z.of_nat (length (a :: l)))%Z with 0%Z by lia.
  replace (Z.of_nat (length (a :: l)))%Z with (Z.of_nat (S (length l))) by reflexivity.
  replace (0 <? Z.of_nat (S (length l)))%Z with true by (symmetry; apply Z.ltb_lt; lia).
  reflexivity.
Qed.

Lemma py_index_repeat {A} (a : A) (n : nat) (D : Z) :
  (1 <= D <= Z.of_nat n)%Z -> py_index (repeat a n) (- D) = Ok a.
Proof.
  intro HD. unfold py_index. rewrite repeat_length.
  replace (- D <? 0)%Z with true by (symmetry; apply Z.ltb_lt; lia).
  replace ((0 <=? Z.of_nat n + - D) && (Z.of_nat n + - D <? Z.of_nat n))%Z with true
    by (symmetry; apply andb_true_intro; split; [apply Z.leb_le | apply Z.ltb_lt]; lia).
  rewrite nth_error_repeat by lia. reflexivity.
Qed.

Lemma py_int_opp (r : R) : py_int (- r) = (- py_int r)%Z.
Proof.
  unfold py_int.
  destruct (Rle_dec 0 (- r)), (Rle_dec 0 r).
  - assert (r = 0) by lra. subst r. rewrite Ropp_0.
    replace (Int_part 0) with 0%Z; [reflexivity |].
    symmetry. apply floor_unique. simpl. lra.
  - lia.
  - rewrite Ropp_involutive. reflexivity.
  - lra.
Qed.

Lemma py_int_nonneg_bounds (r : R) :
  0 <= r -> (0 <= py_int r)%Z /\ IZR (py_int r) <= r /\ r - 1 < IZR (py_int r).
Proof.
  intro H. rewrite py_int_nonneg by exact H. unfold floor.
  destruct (base_Int_part r) as [H1 H2].
  split; [| split; lra].
  apply le_IZR. destruct (Rle_dec 0 (IZR (Int_part r))) as [| Hn]; [lra |].
  assert (Hlt : (Int_part r < 0)%Z) by (apply lt_IZR; lra).
  assert (IZR (Int_part r) <= -1) by (apply IZR_le; lia). lra.
Qed.

Lemma py_int_zero_iff (r : R) : py_int r = 0%Z <-> -1 < r < 1.
Proof.
  split; [| apply py_int_zero].
  intro H. unfold py_int in H. destruct (Rle_dec 0 r) as [Hr | Hr].
  - destruct (base_Int_part r) as [H1 H2]. rewrite H in H2. simpl in H2. lra.
  - destruct (base_Int_part (- r)) as [H1 H2].
    assert (Int_part (- r) = 0%Z) by lia. rewrite H0 in H2. simpl in H2. lra.
Qed.

Lemma IZR_gt_1 (k : Z) : 1 < IZR k -> (2 <= k)%Z.
Proof. intro H. apply lt_IZR in H. lia. Qed.

Lemma clamp_coord_bounds (r m x : R) : r <= m -> r <= Rmax r (Rmin m x) <= m.
Proof. intro H. unfold Rmax, Rmin. destruct (Rle_dec m x), (Rle_dec r _); lra. Qed.

Lemma clamp_coord_idem (r m x : R) :
  Rmax r (Rmin m (Rmax r (Rmin m x))) = Rmax r (Rmin m x).
Proof.
  destruct (Rle_dec x m) as [Hx | Hx].
  - rewrite (Rmin_right m x) by lra.
    destruct (Rle_dec r x) as [Hr | Hr].
    + rewrite (Rmax_right r x), (Rmin_right m x), (Rmax_right r x) by lra. reflexivity.
    + rewrite (Rmax_left r x) by lra.
      destruct (Rle_dec r m); [rewrite (Rmin_right m r) | rewrite (Rmin_left m r)];
        try lra; rewrite ?Rmax_left by lra; reflexivity.
  - rewrite (Rmin_left m x) by lra.
    destruct (Rle_dec r m) as [Hr | Hr].
    + rewrite (Rmax_right r m), (Rmin_left m m), (Rmax_right r m) by lra. reflexivity.
    + rewrite (Rmax_left r m), (Rmin_left m r), (Rmax_left r m) by lra. reflexivity.
Qed.

Lemma clamp_coord_inside (r m x : R) : r <= x <= m -> Rmax r (Rmin m x) = x.
Proof. intro H. unfold Rmax, Rmin. destruct (Rle_dec m x), (Rle_dec r _); lra. Qed.

(** ** Reads that stay defined *)

Lemma vel_ok_mono (D Dmax : Z) (b : Boid) :
  (0 <= D <= Dmax)%Z -> vel_ok Dmax b -> vel_ok D b.
Proof. unfold vel_ok. lia. Qed.

Lemma visit_other_total (s : Sim) (store : list Boid) (bi : nat) (boid : Boid)
    (Dmax : Z) (ns : list neighbor) (j : nat) :
  (1 <= perception_delay s <= Dmax)%Z -> Forall (vel_ok Dmax) store ->
  exists ns', visit_other s store bi boid ns j = Ok ns'.
Proof.
  intros HD HF. unfold visit_other.
  destruct (Nat.eqb j bi); [eexists; reflexivity |].
  destruct (nth_error store j) as [o |] eqn:Ho; [| eexists; reflexivity].
  assert (Hv : vel_ok Dmax o).
  { rewrite Forall_forall in HF. apply HF. eapply nth_error_In. exact Ho. }
  unfold vel_ok in Hv.
  destruct (perception_delay s <? Z.of_nat (length (items (position_history o))))%Z
    eqn:Hlt; [| eexists; reflexivity].
  apply Z.ltb_lt in Hlt.
  destruct (py_index_neg_ok (items (position_history o)) (perception_delay s)
              ltac:(lia)) as ([px py] & Hp).
  rewrite Hp. simpl.
  destruct (Rlt_dec _ _); [| eexists; reflexivity].
  destruct (py_index_neg_ok (items (velocity_history o)) (perception_delay s)
              ltac:(lia)) as (v & Hv').
  rewrite Hv'. simpl. eexists. reflexivity.
Qed.

Lemma get_neighbors_total (s : Sim) (store : list Boid) (bi : nat) (boid : Boid)
    (g : grid) (Dmax : Z) :
  cell_size s <> 0 -> (1 <= perception_delay s <= Dmax)%Z ->
  Forall (vel_ok Dmax) store ->
  exists ns, get_neighbors_with_delay s store bi boid g = Ok ns.
Proof.
  intros Hcs HD HF. unfold get_neighbors_with_delay.
  rewrite !py_div_ok by exact Hcs. simpl. unfold scan_cells.
  apply fold_res_ok. intros acc i _.
  apply fold_res_ok. intros acc' j _.
  destruct (grid_lookup g (i, j)) as [bucket |]; [| eexists; reflexivity].
  apply fold_res_ok. intros acc0 o _.
  apply (visit_other_total s store bi boid Dmax acc0 o HD HF).
Qed.

Lemma build_grid_from_total (cs : R) (i : nat) (bs : list Boid) (g : grid) :
  cs <> 0 -> exists g', build_grid_from cs i bs g = Ok g'.
Proof.
  intro Hcs. revert i g. induction bs as [| b bs IH]; intros i g; simpl.
  - eexists. reflexivity.
  - rewrite cell_of_ok by exact Hcs. simpl. apply IH.
Qed.

Lemma Forall_replace_nth {A} (P : A -> Prop) (l : list A) (i : nat) (a : A) :
  Forall P l -> P a -> Forall P (replace_nth l i a).
Proof.
  revert i. induction l as [| b l IH]; intros [| i] HF Ha; simpl; auto;
    inversion HF; subst; constructor; auto.
Qed.

Lemma integrate_vel_ok (D : Z) (s : Sim) (b : Boid) (neighbors : list neighbor) :
  vel_ok D b -> vel_ok D (integrate (apply_rules s b neighbors)).
Proof.
  destruct (apply_rules_histories s b neighbors) as [_ Hv].
  unfold vel_ok, integrate. cbn [velocity_history].
  rewrite deque_append_length, deque_append_maxlen, Hv. lia.
Qed.

Lemma update_boids_total (s : Sim) (Dmax : Z) :
  cell_size s <> 0 -> (1 <= perception_delay s <= Dmax)%Z ->
  Forall (vel_ok Dmax) (boids s) ->
  exists s', update_boids s = Ok s' /\ s' = set_boids s (boids s') /\
             Forall (vel_ok Dmax) (boids s').
Proof.
  intros Hcs HD HF. unfold update_boids.
  destruct (build_grid_from_total (cell_size s) 0 (boids s) [] Hcs) as (g & Hg).
  unfold build_grid. rewrite Hg. simpl.
  destruct (fold_res_total (process_boid s g) (Forall (vel_ok Dmax))
              (seq 0 (length (boids s))) (boids s) HF) as (store & Hst & HF').
  - intros store i _ Hstore. unfold process_boid.
    destruct (nth_error store i) as [b |] eqn:Hb; [| exists store; split; [reflexivity | exact Hstore]].
    destruct (get_neighbors_total s store i b g Dmax Hcs HD Hstore) as (ns & Hns).
    rewrite Hns. simpl. eexists. split; [reflexivity |].
    apply Forall_replace_nth; [exact Hstore |].
    apply integrate_vel_ok. rewrite Forall_forall in Hstore. apply Hstore.
    eapply nth_error_In. exact Hb.
  - rewrite Hst. simpl. eexists. split; [reflexivity |]. split; [reflexivity | exact HF'].
Qed.

Lemma run_ticks_total (n : nat) (s : Sim) (Dmax : Z) :
  cell_size s <> 0 -> (1 <= perception_delay s <= Dmax)%Z ->
  Forall (vel_ok Dmax) (boids s) ->
  exists s', run_ticks n s = Ok s' /\ Forall (vel_ok Dmax) (boids s').
Proof.
  revert s. induction n as [| n IH]; intros s Hcs HD HF; simpl.
  - exists s. split; [reflexivity | exact HF].
  - destruct (update_boids_total s Dmax Hcs HD HF) as (s1 & Hu & Hs1 & HF1).
    rewrite Hu. simpl.
    apply IH; [rewrite Hs1; exact Hcs | rewrite Hs1; exact HD | exact HF1].
Qed.

Lemma handle_event_ok (Dmax : Z) (a : App) (ev : event) :
  app_ok Dmax a -> (ev <> KEYDOWN K_UP \/ (10 <= Dmax)%Z) ->
  app_ok Dmax (handle_event a ev).
Proof.
  intros (HD & Hcs & HF) Hev.
  destruct ev as [| [] |]; simpl; unfold app_ok; simpl;
    try (repeat split; assumption || lia).
  destruct Hev as [Hev | Hev]; [congruence |]. repeat split; assumption || lia.
Qed.

Lemma handle_events_ok (Dmax : Z) (a : App) (evs : list event) :
  app_ok Dmax a -> (~ In (KEYDOWN K_UP) evs \/ (10 <= Dmax)%Z) ->
  app_ok Dmax (fold_left handle_event evs a).
Proof.
  revert a. induction evs as [| ev evs IH]; intros a Ha Hevs; simpl; [exact Ha |].
  apply IH.
  - apply handle_event_ok; [exact Ha |].
    destruct Hevs as [Hevs | Hevs]; [left | right; exact Hevs].
    intro E. apply Hevs. left. exact E.
  - destruct Hevs as [Hevs | Hevs]; [left | right; exact Hevs].
    intro E. apply Hevs. right. exact E.
Qed.

Lemma frame_total (Dmax : Z) (a : App) (evs : list event) :
  app_ok Dmax a -> (~ In (KEYDOWN K_UP) evs \/ (10 <= Dmax)%Z) ->
  exists a', frame a evs = Ok a' /\ app_ok Dmax a'.
Proof.
  intros Ha Hevs. unfold frame.
  destruct (handle_events_ok Dmax a evs Ha Hevs) as (HD & Hcs & HF).
  set (a1 := fold_left handle_event evs a) in *.
  destruct (update_boids_total (sim a1) Dmax Hcs HD HF) as (s1 & Hu & Hs1 & HF1).
  rewrite Hu. simpl.
  assert (HD1 : (1 <= perception_delay s1 <= Dmax)%Z) by (rewrite Hs1; exact HD).
  destruct (draw_total s1 (show_trajectories a1) ltac:(lia)) as (r & Hr).
  rewrite Hr. simpl. eexists. split; [reflexivity |].
  unfold app_ok. simpl. split; [exact HD1 |]. split; [rewrite Hs1; exact Hcs | exact HF1].
Qed.

Lemma run_loop_total (Dmax : Z) (frames : list (list event)) (a : App) :
  app_ok Dmax a -> (no_key_up frames \/ (10 <= Dmax)%Z) ->
  exists a', run_loop frames a = Ok a'.
Proof.
  revert a. induction frames as [| evs frames IH]; intros a Ha Hf; simpl.
  - eexists. reflexivity.
  - destruct (running a); [| eexists; reflexivity].
    destruct (frame_total Dmax a evs Ha) as (a' & Hfr & Ha').
    { destruct Hf as [Hf | Hf]; [left; inversion Hf; assumption | right; exact Hf]. }
    rewrite Hfr. simpl. apply IH; [exact Ha' |].
    destruct Hf as [Hf | Hf]; [left; inversion Hf; assumption | right; exact Hf].
Qed.

Lemma fresh_vel_ok (D : Z) (b : Boid) :
  (0 <= D)%Z -> fresh_boid_ok D b -> vel_ok (D + 1) b.
Proof.
  intros HD (_ & _ & Hv & Hvm). unfold vel_ok. rewrite Hv, Hvm, repeat_length. lia.
Qed.

Lemma start_ok (w h : R) (D num : Z) (vr : R) (rand : nat -> R) (s : Sim) :
  (1 <= D)%Z -> vr <> 0 -> BoidSimulation w h D num vr rand = Ok s ->
  app_ok (D + 1) (start s).
Proof.
  intros HD Hvr Hs.
  destruct (BoidSimulation_ok w h D num vr rand
      (proj1 (BoidSimulation_dims _ _ _ _ _ _ _ Hs))
      (proj2 (BoidSimulation_dims _ _ _ _ _ _ _ Hs)) ltac:(lia))
    as (s0 & Hs0 & _ & HF & Hd & Hc & _).
  rewrite Hs0 in Hs. injection Hs as <-.
  unfold app_ok, start. simpl. rewrite Hd, Hc.
  split; [lia | split; [exact Hvr |]].
  eapply Forall_impl; [| exact HF]. intros b. apply fresh_vel_ok. lia.
Qed.

(** ** Exact history lengths *)

Lemma integrate_lengths_ok (D : Z) (n : nat) (s : Sim) (b : Boid)
    (neighbors : list neighbor) :
  (0 <= D)%Z -> lengths_ok D n b ->
  lengths_ok D (S n) (integrate (apply_rules s b neighbors)).
Proof.
  destruct (apply_rules_histories s b neighbors) as [Hp Hv].
  intros HD (Hpl & Hpm & Hvl & Hvm). unfold lengths_ok, integrate.
  cbn [position_history velocity_history].
  rewrite !deque_append_length, !deque_append_maxlen, Hp, Hv. lia.
Qed.

Lemma update_boids_lengths (D : Z) (n : nat) (s s' : Sim) :
  (0 <= D)%Z -> Forall (lengths_ok D n) (boids s) -> update_boids s = Ok s' ->
  Forall (lengths_ok D (S n)) (boids s').
Proof.
  intros HD HF Hu. destruct (update_boids_each s s' Hu) as [_ Heach].
  apply Forall_forall. intros b' Hin.
  destruct (In_nth_error _ _ Hin) as [j Hj].
  destruct (Heach j b' Hj) as (b & nbs & Hb & ->).
  apply integrate_lengths_ok; [exact HD |].
  rewrite Forall_forall in HF. apply HF. eapply nth_error_In. exact Hb.
Qed.

Lemma run_ticks_lengths (D : Z) (k n : nat) (s s' : Sim) :
  (0 <= D)%Z -> Forall (lengths_ok D k) (boids s) -> run_ticks n s = Ok s' ->
  same_inputs (set_boids s (boids s')) s' /\ length (boids s') = length (boids s) /\
  Forall (lengths_ok D (k + n)) (boids s').
Proof.
  revert k s. induction n as [| n IH]; intros k s HD HF Hrun; simpl in Hrun.
  - injection Hrun as <-. rewrite Nat.add_0_r.
    split; [unfold same_inputs; simpl; repeat split | split; [reflexivity | exact HF]].
  - destruct (update_boids s) as [s1 |] eqn:Hu; simpl in Hrun; [| discriminate].
    destruct (IH (S k) s1 HD (update_boids_lengths D k s s1 HD HF Hu) Hrun)
      as (Hsame & Hlen & HF').
    replace (k + S n)%nat with (S k + n)%nat by lia.
    destruct (update_boids_each s s1 Hu) as [Hlen1 _].
    split; [| split; [congruence | exact HF']].
    destruct (update_boids_set s s1 Hu) as [store ->]. exact Hsame.
Qed.

Lemma fresh_lengths_ok (D : Z) (b : Boid) :
  (0 <= D)%Z -> fresh_boid_ok D b -> lengths_ok D 0 b.
Proof.
  intros HD (Hp & Hpm & Hv & Hvm). unfold lengths_ok.
  rewrite Hp, Hv, !repeat_length. lia.
Qed.

(** ** The neighbour query *)

Lemma visit_other_velocity_too_short (s : Sim) (store : list Boid) (bi : nat)
    (boid : Boid) (neighbors : list neighbor) (j : nat) (o : Boid) (p : R * R) :
  j <> bi -> nth_error store j = Some o ->
  (perception_delay s < Z.of_nat (length (items (position_history o))))%Z ->
  py_index (items (position_history o)) (- perception_delay s) = Ok p ->
  (x boid - fst p) * (x boid - fst p) + (y boid - snd p) * (y boid - snd p)
    < visual_range_sq s ->
  (0 < perception_delay s)%Z ->
  (Z.of_nat (length (items (velocity_history o))) < perception_delay s)%Z ->
  visit_other s store bi boid neighbors j = Err IndexError.
Proof.
  intros Hj Ho Hlt Hp Hr HD Hv. unfold visit_other.
  replace (Nat.eqb j bi) with false by (symmetry; apply Nat.eqb_neq; exact Hj).
  rewrite Ho.
  replace (perception_delay s <? Z.of_nat (length (items (position_history o))))%Z
    with true by (symmetry; apply Z.ltb_lt; exact Hlt).
  rewrite Hp. simpl. destruct p as [px py]. simpl in Hr.
  destruct (Rlt_dec _ _) as [_ | Hn]; [| contradiction].
  rewrite py_index_neg_err by assumption. reflexivity.
Qed.

Lemma visit_other_negative_delay (s : Sim) (store : list Boid) (bi : nat)
    (boid : Boid) (neighbors : list neighbor) (j : nat) (o : Boid) :
  (perception_delay s < 0)%Z -> j <> bi -> nth_error store j = Some o ->
  (Z.of_nat (length (items (position_history o))) <= - perception_delay s)%Z ->
  visit_other s store bi boid neighbors j = Err IndexError.
Proof.
  intros HD Hj Ho Hlen. unfold visit_other.
  replace (Nat.eqb j bi) with false by (symmetry; apply Nat.eqb_neq; exact Hj).
  rewrite Ho.
  replace (perception_delay s <? Z.of_nat (length (items (position_history o))))%Z
    with true by (symmetry; apply Z.ltb_lt; lia).
  rewrite py_index_pos_err by lia. reflexivity.
Qed.

Lemma visit_other_sound (s : Sim) (store : list Boid) (bi : nat) (boid : Boid)
    (ns ns' : list neighbor) (j : nat) :
  Forall (perceived s store bi boid) ns -> visit_other s store bi boid ns j = Ok ns' ->
  Forall (perceived s store bi boid) ns'.
Proof.
  intros HF H. unfold visit_other in H.
  destruct (Nat.eqb j bi) eqn:Hj; [congruence |]. apply Nat.eqb_neq in Hj.
  destruct (nth_error store j) as [o |] eqn:Ho; [| congruence].
  destruct (perception_delay s <? _)%Z eqn:Hlt; [| congruence]. apply Z.ltb_lt in Hlt.
  destruct (py_index (items (position_history o)) _) as [[px py] |] eqn:Hp;
    simpl in H; [| discriminate].
  destruct (Rlt_dec _ _) as [Hr | _]; [| congruence].
  destruct (py_index (items (velocity_history o)) _) as [v |] eqn:Hv;
    simpl in H; [| discriminate].
  injection H as <-. apply Forall_app. split; [exact HF |].
  repeat constructor; [exact Hj |]. exists o. repeat split; assumption.
Qed.

Lemma visit_other_err (s : Sim) (store : list Boid) (bi : nat) (boid : Boid)
    (ns : list neighbor) (j : nat) (e : exn) :
  visit_other s store bi boid ns j = Err e -> e = IndexError.
Proof.
  unfold visit_other. intro H.
  destruct (Nat.eqb j bi); [congruence |].
  destruct (nth_error store j) as [o |]; [| congruence].
  destruct (_ <? _)%Z; [| congruence].
  destruct (py_index (items (position_history o)) _) as [[px py] |] eqn:Hp;
    simpl in H; [| injection H as <-; exact (py_index_err _ _ _ Hp)].
  destruct (Rlt_dec _ _); [| congruence].
  destruct (py_index (items (velocity_history o)) _) eqn:Hv; simpl in H; [congruence |].
  injection H as <-. exact (py_index_err _ _ _ Hv).
Qed.

(** ** The grid *)

Lemma build_grid_from_err (cs : R) (i : nat) (bs : list Boid) (g : grid) (e : exn) :
  build_grid_from cs i bs g = Err e -> e = ZeroDivisionError /\ cs = 0 /\ bs <> [].
Proof.
  revert i g. induction bs as [| b bs IH]; intros i g H; simpl in H; [discriminate |].
  destruct (Req_EM_T cs 0) as [-> | Hcs].
  - rewrite cell_of_zero in H. simpl in H. injection H as <-.
    split; [reflexivity | split; [reflexivity | discriminate]].
  - rewrite cell_of_ok in H by exact Hcs. simpl in H.
    destruct (IH _ _ H) as (He & Hc & _). contradiction.
Qed.

Lemma grid_lookup_add (g : grid) (c c' : cell) (i : nat) :
  bucket_of (grid_add g c i) c' =
  if cell_eqb c' c then bucket_of g c' ++ [i] else bucket_of g c'.
Proof.
  unfold bucket_of. induction g as [| [c0 l] g IH]; simpl.
  - destruct (cell_eqb c' c); reflexivity.
  - destruct (cell_eqb c c0) eqn:E1; simpl.
    + destruct c as [a b], c0 as [a0 b0], c' as [a' b']. unfold cell_eqb in *. simpl in *.
      apply andb_prop in E1. destruct E1 as [E1 E2]. apply Z.eqb_eq in E1, E2. subst.
      destruct (Z.eqb a' a0 && Z.eqb b' b0); reflexivity.
    + destruct (cell_eqb c' c0) eqn:E2; [| exact IH].
      destruct (cell_eqb c' c) eqn:E3; [| reflexivity].
      destruct c as [a b], c0 as [a0 b0], c' as [a' b']. unfold cell_eqb in *. simpl in *.
      apply andb_prop in E2, E3. destruct E2 as [E2 E2'], E3 as [E3 E3'].
      apply Z.eqb_eq in E2, E2', E3, E3'. subst.
      rewrite !Z.eqb_refl in E1. discriminate.
Qed.

Lemma cell_eqb_sym (c c' : cell) : cell_eqb c c' = cell_eqb c' c.
Proof. unfold cell_eqb. rewrite (Z.eqb_sym (fst c)), (Z.eqb_sym (snd c)). reflexivity. Qed.

Lemma build_grid_from_buckets (cs : R) (i : nat) (bs : list Boid) (g g' : grid) :
  build_grid_from cs i bs g = Ok g' ->
  forall c, bucket_of g' c = bucket_of g c ++ cell_indices cs c i bs.
Proof.
  revert i g. induction bs as [| b bs IH]; intros i g H c; simpl in H.
  - injection H as <-. simpl. rewrite app_nil_r. reflexivity.
  - destruct (cell_of cs b) as [cb |] eqn:Hc; simpl in H; [| discriminate].
    rewrite (IH _ _ H c), grid_lookup_add. simpl. rewrite Hc.
    rewrite (cell_eqb_sym c cb).
    destruct (cell_eqb cb c); [rewrite <- app_assoc; reflexivity | reflexivity].
Qed.

Lemma cell_indices_spec (cs : R) (c : cell) (i : nat) (bs : list Boid) (k : nat) :
  In k (cell_indices cs c i bs) <->
  exists b, (i <= k)%nat /\ nth_error bs (k - i) = Some b /\ cell_of cs b = Ok c.
Proof.
  revert i. induction bs as [| b bs IH]; intro i; simpl.
  - split; [contradiction |]. intros (b & _ & Hn & _). destruct (k - i)%nat; discriminate.
  - assert (Hstep : (exists b0, (S i <= k)%nat /\ nth_error bs (k - S i) = Some b0 /\
                              cell_of cs b0 = Ok c) <->
                    (exists b0, (i <= k)%nat /\ nth_error (b :: bs) (k - i) = Some b0 /\
                              cell_of cs b0 = Ok c) /\ k <> i).
    { split.
      - intros (b0 & Hle & Hn & Hc). split; [| lia]. exists b0.
        replace (k - i)%nat with (S (k - S i)) by lia.
        split; [lia | split; [exact Hn | exact Hc]].
      - intros ((b0 & Hle & Hn & Hc) & Hne). exists b0.
        replace (k - i)%nat with (S (k - S i)) in Hn by lia.
        split; [lia | split; [exact Hn | exact Hc]]. }
    destruct (cell_of cs b) as [cb |] eqn:Hb.
    + destruct (cell_eqb c cb) eqn:E.
      * assert (cb = c).
        { destruct c as [a1 a2], cb as [b1 b2]. unfold cell_eqb in E. simpl in E.
          apply andb_prop in E. destruct E as [E1 E2].
          apply Z.eqb_eq in E1, E2. subst. reflexivity. }
        subst cb. simpl. rewrite IH, Hstep. split.
        { intros [<- | [H _]]; [| exact H].
          exists b. rewrite Nat.sub_diag. auto. }
        { intros H. destruct (Nat.eq_dec i k) as [-> | Hne]; [left; reflexivity |].
          right. split; [exact H | lia]. }
      * rewrite IH, Hstep. split; [intros [H _]; exact H |].
        intros H. split; [exact H |]. intros ->. destruct H as (b0 & _ & Hn & Hc).
        rewrite Nat.sub_diag in Hn. simpl in Hn. injection Hn as <-.
        rewrite Hb in Hc. injection Hc as ->.
        destruct c as [a1 a2]. unfold cell_eqb in E. simpl in E.
        rewrite !Z.eqb_refl in E. discriminate.
    + rewrite IH, Hstep. split; [intros [H _]; exact H |].
      intros H. split; [exact H |]. intros ->. destruct H as (b0 & _ & Hn & Hc).
      rewrite Nat.sub_diag in Hn. simpl in Hn. injection Hn as <-. congruence.
Qed.

(** ** Drawing and the loop *)

Lemma fade_color_range (i n : nat) :
  (1 <= i < n)%nat ->
  (0 <= fst (fst (fade_color i n)) <= 99)%Z /\ (0 <= snd (fst (fade_color i n)) <= 254)%Z /\
  snd (fade_color i n) = fst (fst (fade_color i n)).
Proof.
  intro H. unfold fade_color. simpl.
  assert (Hi : 0 < INR i) by (apply lt_0_INR; lia).
  assert (Hn : INR i < INR n) by (apply lt_INR; lia).
  assert (Hf : 0 < INR i / INR n < 1).
  { split; [apply Rdiv_lt_0_compat; lra |].
    apply (Rmult_lt_reg_r (INR n)); [lra |]. unfold Rdiv.
    rewrite Rmult_assoc, Rinv_l by lra. lra. }
  destruct (py_int_nonneg_bounds (100 * (INR i / INR n)) ltac:(nra)) as (H0 & H1 & _).
  destruct (py_int_nonneg_bounds (255 * (INR i / INR n)) ltac:(nra)) as (H0' & H1' & _).
  assert (IZR (py_int (100 * (INR i / INR n))) < 100) by nra.
  assert (IZR (py_int (255 * (INR i / INR n))) < 255) by nra.
  apply lt_IZR in H2. apply lt_IZR in H3.
  repeat split; try lia.
Qed.

Lemma nth_error_seq_at (start len i : nat) :
  (i < len)%nat -> nth_error (seq start len) i = Some (start + i)%nat.
Proof.
  revert start i. induction len as [| len IH]; intros start i H; [lia |].
  destruct i as [| i]; simpl; [f_equal; lia |].
  rewrite IH by lia. f_equal. lia.
Qed.

Lemma handle_event_stopped (a : App) (ev : event) :
  running a = false -> running (handle_event a ev) = false.
Proof. intro H. destruct ev as [| [] |]; simpl; assumption || reflexivity. Qed.

Lemma handle_events_stopped (a : App) (evs : list event) :
  running a = false -> running (fold_left handle_event evs a) = false.
Proof.
  revert a. induction evs as [| ev evs IH]; intros a H; simpl; [exact H |].
  apply IH. apply handle_event_stopped. exact H.
Qed.

Lemma run_loop_stopped (frames : list (list event)) (a : App) :
  running a = false -> run_loop frames a = Ok a.
Proof. intro H. destruct frames; simpl; [reflexivity | rewrite H; reflexivity]. Qed.

(** ** The rules *)

Lemma avoid_fold_far (b : Boid) (ns : list neighbor) (mX mY : R) :
  Forall (fun n : neighbor => let '(_, px, py, _) := n in
     min_distance * min_distance <= (x b - px) * (x b - px) + (y b - py) * (y b - py)) ns ->
  fold_left (fun acc (n : neighbor) =>
      let '(mX, mY) := acc in
      let '(_, delayed_x, delayed_y, _) := n in
      let ddx := x b - delayed_x in
      let ddy := y b - delayed_y in
      if Rlt_dec (ddx * ddx + ddy * ddy) (min_distance * min_distance)
      then (mX + ddx, mY + ddy) else (mX, mY)) ns (mX, mY) = (mX, mY).
Proof.
  revert mX mY. induction ns as [| [[[j px] py] v] ns IH]; intros mX mY HF; simpl;
    [reflexivity |].
  inversion HF as [| ? ? Hn HF']; subst.
  destruct (Rlt_dec _ _); [lra |]. apply IH. exact HF'.
Qed.

Lemma center_fold (ns : list neighbor) (a b : R) (k : nat) :
  fold_left (fun acc (n : neighbor) =>
      let '(cX, cY, k) := acc in
      let '(_, delayed_x, delayed_y, _) := n in
      (cX + delayed_x, cY + delayed_y, S k)) ns (a, b, k)
  = (a + sum_R (map (fun n : neighbor => let '(_, px, _, _) := n in px) ns),
     b + sum_R (map (fun n : neighbor => let '(_, _, py, _) := n in py) ns),
     (k + length ns)%nat).
Proof.
  revert a b k. induction ns as [| [[[j px] py] v] ns IH]; intros a b k; simpl.
  - rewrite !Rplus_0_r, Nat.add_0_r. reflexivity.
  - rewrite IH. f_equal; [f_equal; ring | lia].
Qed.

Lemma match_fold (ns : list neighbor) (a b : R) (k : nat) :
  fold_left (fun acc (n : neighbor) =>
      let '(aX, aY, k) := acc in
      let '(_, _, _, (delayed_dx, delayed_dy)) := n in
      (aX + delayed_dx, aY + delayed_dy, S k)) ns (a, b, k)
  = (a + sum_R (map (fun n : neighbor => let '(_, _, _, v) := n in fst v) ns),
     b + sum_R (map (fun n : neighbor => let '(_, _, _, v) := n in snd v) ns),
     (k + length ns)%nat).
Proof.
  revert a b k. induction ns as [| [[[j px] py] [vx vy]] ns IH]; intros a b k; simpl.
  - rewrite !Rplus_0_r, Nat.add_0_r. reflexivity.
  - rewrite IH. f_equal; [f_equal; ring | lia].
Qed.

(** * Properties of [clamp_circle], [draw], [run] and [main] *)

(** X1: [clamp_circle] with radius [r] on a [w] x [h] screen at least [2r]
    wide and high puts the centre in [[r, w - r] x [r, h - r]]; clamping a
    clamped point changes nothing, and a point already in that rectangle is
    returned unchanged. *)
Theorem clamp_circle_props (w h x y r : R) :
  2 * r <= w -> 2 * r <= h ->
  (r <= fst (clamp_circle w h x y r) <= w - r /\
   r <= snd (clamp_circle w h x y r) <= h - r) /\
  clamp_circle w h (fst (clamp_circle w h x y r)) (snd (clamp_circle w h x y r)) r
  = clamp_circle w h x y r /\
  (r <= x <= w - r -> r <= y <= h - r -> clamp_circle w h x y r = (x, y)).
Proof.
  intros Hw Hh. unfold clamp_circle. simpl.
  split; [split; apply clamp_coord_bounds; lra |].
  split; [rewrite !clamp_coord_idem; reflexivity |].
  intros Hx Hy. rewrite !clamp_coord_inside by lra. reflexivity.
Qed.

Lemma clamp_circle_props_witness :
  2 <= fst (clamp_circle 1024 768 (-5) 900 2) <= 1024 - 2 /\
  2 <= snd (clamp_circle 1024 768 (-5) 900 2) <= 768 - 2.
Proof.
  destruct (clamp_circle_props 1024 768 (-5) 900 2 ltac:(lra) ltac:(lra)) as [H _].
  exact H.
Defined.

(** X2: with a delay of at least 1 and a screen at least 4 pixels wide and
    high, the delayed marker of [draw] never raises; it is skipped exactly
    when the position history is shorter than the delay, and otherwise its
    integer pixel centre lies in [[2, width - 2] x [2, height - 2]]. *)
Theorem delayed_marker_on_screen (s : Sim) (b : Boid) :
  (1 <= perception_delay s)%Z -> 4 <= width s -> 4 <= height s ->
  exists m, delayed_marker s b = Ok m /\
    (m = None <-> (Z.of_nat (length (items (position_history b))) < perception_delay s)%Z) /\
    (forall px py, m = Some (px, py) ->
       (2 <= px)%Z /\ IZR px <= width s - 2 /\ (2 <= py)%Z /\ IZR py <= height s - 2).
Proof.
  intros HD Hw Hh. unfold delayed_marker.
  destruct (perception_delay s <=? Z.of_nat (length (items (position_history b))))%Z
    eqn:Hle.
  - apply Z.leb_le in Hle.
    destruct (py_index_neg_ok (items (position_history b)) (perception_delay s)
                ltac:(lia)) as (p & Hp).
    rewrite Hp. simpl.
    destruct (clamp_coord_bounds 2 (width s - 2) (fst p) ltac:(lra)) as [Hx1 Hx2].
    destruct (clamp_coord_bounds 2 (height s - 2) (snd p) ltac:(lra)) as [Hy1 Hy2].
    unfold clamp_circle.
    eexists. split; [reflexivity |]. split.
    + split; [discriminate | lia].
    + intros px py E. injection E as <- <-.
      destruct (py_int_nonneg_bounds (Rmax 2 (Rmin (width s - 2) (fst p))) ltac:(lra))
        as (_ & Ha1 & Ha2).
      destruct (py_int_nonneg_bounds (Rmax 2 (Rmin (height s - 2) (snd p))) ltac:(lra))
        as (_ & Hb1 & Hb2).
      repeat split; try lra; apply IZR_gt_1; lra.
  - eexists. split; [reflexivity |]. split.
    + split; [intros _; apply Z.leb_gt in Hle; exact Hle | reflexivity].
    + intros px py E. discriminate.
Qed.

Lemma delayed_marker_on_screen_witness :
  exists m, delayed_marker scenario boid_B = Ok m /\
    (m = None <-> (Z.of_nat (length (items (position_history boid_B)))
                   < perception_delay scenario)%Z) /\
    (forall px py, m = Some (px, py) ->
       (2 <= px)%Z /\ IZR px <= width scenario - 2 /\
       (2 <= py)%Z /\ IZR py <= height scenario - 2).
Proof.
  apply delayed_marker_on_screen; unfold scenario; simpl; lra || lia.
Defined.

(** X3: when another boid's position history holds exactly [perception_delay]
    samples, the neighbour query skips it (its guard is a strict [>]) while
    [draw] still shows its delayed marker, at the oldest sample clamped and
    truncated. *)
Theorem marker_without_perception (s : Sim) (store : list Boid) (bi : nat)
    (boid : Boid) (neighbors : list neighbor) (j : nat) (o : Boid)
    (p : R * R) (ps : list (R * R)) :
  j <> bi -> nth_error store j = Some o -> items (position_history o) = p :: ps ->
  Z.of_nat (length (p :: ps)) = perception_delay s ->
  visit_other s store bi boid neighbors j = Ok neighbors /\
  delayed_marker s o
  = Ok (Some (py_int (fst (clamp_circle (width s) (height s) (fst p) (snd p) 2)),
              py_int (snd (clamp_circle (width s) (height s) (fst p) (snd p) 2)))).
Proof.
  intros Hj Ho Hp HD. split.
  - unfold visit_other.
    replace (Nat.eqb j bi) with false by (symmetry; apply Nat.eqb_neq; exact Hj).
    rewrite Ho, Hp.
    replace (perception_delay s <? Z.of_nat (length (p :: ps)))%Z with false
      by (symmetry; apply Z.ltb_ge; lia).
    reflexivity.
  - unfold delayed_marker. rewrite Hp.
    replace (perception_delay s <=? Z.of_nat (length (p :: ps)))%Z with true
      by (symmetry; apply Z.leb_le; lia).
    rewrite <- HD, py_index_neg_length. simpl.
    destruct (clamp_circle (width s) (height s) (fst p) (snd p) 2). reflexivity.
Qed.

Lemma marker_without_perception_witness :
  visit_other (set_perception_delay scenario 2) [boid_A; boid_B] 0 boid_A [] 1 = Ok [] /\
  delayed_marker (set_perception_delay scenario 2) boid_B
  = Ok (Some (py_int (fst (clamp_circle 1024 768 10 0 2)),
              py_int (snd (clamp_circle 1024 768 10 0 2)))).
Proof.
  exact (marker_without_perception (set_perception_delay scenario 2) [boid_A; boid_B] 0
           boid_A [] 1 boid_B (10, 0) [(10, 0)] ltac:(lia) eq_refl eq_refl eq_refl).
Defined.

(** X4: every trajectory segment of [draw] has a colour [(r, g, r)] with
    [0 <= r <= 99] and [0 <= g <= 254]; with the flag off no segment is
    drawn, and with it on segment [i - 1] joins points [i - 1] and [i] of the
    history, one segment fewer than there are points. *)
Theorem trajectory_segments_valid (show : bool) (b : Boid) :
  Forall (fun sg : segment =>
    let '(_, _, (r, g, bl)) := sg in
    (0 <= r <= 99)%Z /\ (0 <= g <= 254)%Z /\ bl = r) (trajectory show b) /\
  (show = false -> trajectory show b = []) /\
  (show = true ->
     length (trajectory show b) = (length (items (position_history b)) - 1)%nat /\
     forall i, (1 <= i < length (items (position_history b)))%nat ->
       nth_error (trajectory show b) (i - 1)
       = Some (nth (i - 1) (items (position_history b)) (0, 0),
               nth i (items (position_history b)) (0, 0),
               fade_color i (length (items (position_history b))))).
Proof.
  unfold trajectory. set (pts := items (position_history b)).
  split; [| split].
  - destruct (show && (1 <? length pts)%nat); [| constructor].
    unfold trajectory_segments. apply Forall_map. apply Forall_forall.
    intros i Hin. apply in_seq in Hin.
    destruct (fade_color_range i (length pts) ltac:(lia)) as (H1 & H2 & H3).
    destruct (fade_color i (length pts)) as [[r g] bl]. simpl in *.
    split; [exact H1 | split; [exact H2 | exact H3]].
  - intros ->. reflexivity.
  - intros ->. simpl.
    destruct (1 <? length pts)%nat eqn:E.
    + apply Nat.ltb_lt in E. unfold trajectory_segments.
      rewrite length_map, length_seq. split; [reflexivity |].
      intros i Hi. rewrite nth_error_map, nth_error_seq_at by lia. simpl.
      replace (S (i - 1)) with i by lia. rewrite ?Nat.sub_0_r. reflexivity.
    + apply Nat.ltb_ge in E. simpl. split; [lia |]. intros i Hi. lia.
Qed.

(** X5: a QUIT event does not stop the frame it arrives in: the later events
    of that frame are still handled, the boids are updated and drawn once
    more, and only then does the loop end. *)
Theorem quit_finishes_frame (a : App) (evs : list event) (rest : list (list event)) :
  running a = true ->
  run_loop ((QUIT :: evs) :: rest) a
  = (let a1 := fold_left handle_event evs (mkApp (sim a) (show_trajectories a) false) in
     let* s := update_boids (sim a1) in
     let* _ := draw s (show_trajectories a1) in
     Ok (mkApp s (show_trajectories a1) false)).
Proof.
  intro H. simpl. rewrite H. unfold frame. simpl.
  set (a1 := fold_left handle_event evs (mkApp (sim a) (show_trajectories a) false)).
  assert (Hr : running a1 = false) by (apply handle_events_stopped; reflexivity).
  destruct (update_boids (sim a1)) as [s |]; simpl; [| reflexivity].
  destruct (draw s (show_trajectories a1)); simpl; [| reflexivity].
  rewrite Hr. apply run_loop_stopped. reflexivity.
Qed.

Lemma quit_finishes_frame_witness :
  run_loop [[QUIT; KEYDOWN K_UP]; [KEYDOWN K_UP]]
    (start (mkSim 1024 768 0 75 (75 * 75) 75 1 []))
  = Ok (mkApp (mkSim 1024 768 0 75 (75 * 75) 75 2 []) false false).
Proof.
  rewrite (quit_finishes_frame (start (mkSim 1024 768 0 75 (75 * 75) 75 1 []))
             [KEYDOWN K_UP] [[KEYDOWN K_UP]] eq_refl).
  reflexivity.
Defined.

(** X6: from a constructed simulation with delay at least 1 and a non-zero
    visual range, the event loop never raises as long as no up-arrow key is
    pressed, or the delay started at 9 or more, whatever the other keys. *)
Theorem run_loop_never_raises (w h : R) (D num : Z) (vr : R) (rand : nat -> R)
    (s : Sim) (frames : list (list event)) :
  (1 <= D)%Z -> vr <> 0 -> BoidSimulation w h D num vr rand = Ok s ->
  (no_key_up frames \/ (9 <= D)%Z) ->
  exists a, run_loop frames (start s) = Ok a.
Proof.
  intros HD Hvr Hs Hf.
  apply (run_loop_total (D + 1) frames (start s) (start_ok w h D num vr rand s HD Hvr Hs)).
  destruct Hf; [left; assumption | right; lia].
Qed.

Lemma run_loop_never_raises_witness :
  exists s, BoidSimulation 1024 768 1 2 75 (fun _ => 0) = Ok s /\
  exists a, run_loop [[KEYDOWN K_DOWN; KEYDOWN K_t]; [OTHER_EVENT]] (start s) = Ok a.
Proof.
  eexists. split; [construct |].
  apply (run_loop_never_raises 1024 768 1 2 75 (fun _ => 0)); [lia | lra | construct |].
  left. repeat constructor; simpl; intuition discriminate.
Defined.

(** X7: [main] builds 100 boids in a 1024 x 768 arena with delay 1 and visual
    range 75, trajectories hidden and the loop running; from there any number
    of frames of [update_boids], and any run of the loop without an up-arrow
    key, end without an exception. *)
Theorem main_defaults (rand : nat -> R) :
  exists a, main rand = Ok a /\ running a = true /\ show_trajectories a = false /\
    length (boids (sim a)) = 100%nat /\ perception_delay (sim a) = 1%Z /\
    cell_size (sim a) = 75 /\ visual_range_sq (sim a) = 75 * 75 /\
    width (sim a) = 1024 /\ height (sim a) = 768 /\
    (forall n, exists s', run_ticks n (sim a) = Ok s') /\
    (forall frames, no_key_up frames -> exists a', run_loop frames a = Ok a').
Proof.
  destruct (BoidSimulation_ok 1024 768 1 100 75 rand ltac:(lra) ltac:(lra) ltac:(lia))
    as (s & Hs & Hlen & HF & Hd & Hc & Hvr & Hw & Hh).
  exists (start s). unfold main. rewrite Hs. simpl.
  assert (Ha : app_ok 2 (start s)) by (apply (start_ok 1024 768 1 100 75 rand s); lra || lia || exact Hs).
  split; [reflexivity |]. split; [reflexivity |]. split; [reflexivity |].
  split; [exact Hlen |]. split; [exact Hd |]. split; [exact Hc |].
  split; [exact Hvr |]. split; [exact Hw |]. split; [exact Hh |].
  split.
  - intro n. destruct Ha as (HD & Hcs & HF2).
    destruct (run_ticks_total n s 2 Hcs HD HF2) as (s' & Hr & _). exists s'. exact Hr.
  - intros frames Hf. apply (run_loop_total 2 frames (start s) Ha). left. exact Hf.
Qed.

(** * Properties of construction and of the histories *)

(** X8: [n] frames after construction with a delay [D >= 0], every position
    history holds [min(D + 1 + n, 100)] samples and every velocity history
    exactly [D + 1]; the delay and the number of boids are unchanged. *)
Theorem history_lengths_after_frames (w h : R) (D num : Z) (vr : R)
    (rand : nat -> R) (n : nat) (s s' : Sim) :
  (0 <= D)%Z -> BoidSimulation w h D num vr rand = Ok s -> run_ticks n s = Ok s' ->
  perception_delay s' = D /\ length (boids s') = Z.to_nat num /\
  Forall (fun b =>
    length (items (position_history b)) = Nat.min (Z.to_nat (D + 1) + n) 100 /\
    length (items (velocity_history b)) = Z.to_nat (D + 1)) (boids s').
Proof.
  intros HD Hs Hrun.
  destruct (BoidSimulation_ok w h D num vr rand
      (proj1 (BoidSimulation_dims _ _ _ _ _ _ _ Hs))
      (proj2 (BoidSimulation_dims _ _ _ _ _ _ _ Hs)) ltac:(lia))
    as (s0 & Hs0 & Hlen & HF & Hd & _).
  rewrite Hs0 in Hs. injection Hs as <-.
  assert (HF0 : Forall (lengths_ok D 0) (boids s0)).
  { eapply Forall_impl; [| exact HF]. intros b. apply fresh_lengths_ok. exact HD. }
  destruct (run_ticks_lengths D 0 n s0 s' HD HF0 Hrun) as (Hsame & Hlen' & HF').
  destruct Hsame as (_ & _ & _ & _ & Hd' & _). simpl in Hd'.
  split; [congruence |].
  split; [congruence |].
  eapply Forall_impl; [| exact HF']. intros b (H1 & _ & H3 & _). split; assumption.
Qed.

Lemma history_lengths_after_frames_witness :
  exists s s', BoidSimulation 1024 768 1 2 75 (fun _ => 0) = Ok s /\
    run_ticks 3 s = Ok s' /\
    perception_delay s' = 1%Z /\ length (boids s') = Z.to_nat 2 /\
    Forall (fun b =>
      length (items (position_history b)) = Nat.min (Z.to_nat (1 + 1) + 3) 100 /\
      length (items (velocity_history b)) = Z.to_nat (1 + 1)) (boids s').
Proof.
  destruct (BoidSimulation_ok 1024 768 1 2 75 (fun _ => 0) ltac:(lra) ltac:(lra) ltac:(lia))
    as (s & Hs & _ & HF & Hd & Hc & _).
  destruct (run_ticks_total 3 s 2) as (s' & Hr & _).
  { rewrite Hc. lra. }
  { rewrite Hd. lia. }
  { eapply Forall_impl; [| exact HF]. intros b. apply fresh_vel_ok. lia. }
  exists s, s'. split; [exact Hs |]. split; [exact Hr |].
  exact (history_lengths_after_frames 1024 768 1 2 75 (fun _ => 0) 3 s s'
           ltac:(lia) Hs Hr).
Defined.

(** X9: right after construction with a delay [D] in [1, 99], every boid's
    position history is longer than [D], and the reads at [-D] give its
    initial position and velocity. *)
Theorem fresh_delayed_read (w h : R) (D num : Z) (vr : R) (rand : nat -> R) (s : Sim) :
  (1 <= D <= 99)%Z ->
  BoidSimulation w h D num vr rand = Ok s ->
  Forall (fun b =>
    (D < Z.of_nat (length (items (position_history b))))%Z /\
    py_index (items (position_history b)) (- D) = Ok (x b, y b) /\
    py_index (items (velocity_history b)) (- D) = Ok (dx b, dy b)) (boids s).
Proof.
  intros HD Hs.
  destruct (BoidSimulation_ok w h D num vr rand
      (proj1 (BoidSimulation_dims _ _ _ _ _ _ _ Hs))
      (proj2 (BoidSimulation_dims _ _ _ _ _ _ _ Hs)) ltac:(lia))
    as (s0 & Hs0 & _ & HF & _). rewrite Hs in Hs0. injection Hs0 as <-.
  revert HF. apply Forall_impl. intros b (Hp & _ & Hv & _).
  rewrite Hp, Hv, repeat_length.
  split; [lia |]. split; apply py_index_repeat; lia.
Qed.

Lemma fresh_delayed_read_witness :
  exists s, BoidSimulation 1024 768 1 2 75 (fun _ => 0) = Ok s /\
  Forall (fun b =>
    (1 < Z.of_nat (length (items (position_history b))))%Z /\
    py_index (items (position_history b)) (- 1) = Ok (x b, y b) /\
    py_index (items (velocity_history b)) (- 1) = Ok (dx b, dy b)) (boids s).
Proof.
  eexists. split; [construct |].
  apply (fresh_delayed_read 1024 768 1 2 75 (fun _ => 0)); [lia | construct].
Defined.

(** X10: two up-arrow presses after at least two frames from delay 1 raise
    the delay to 3 while every velocity history still holds 2 samples and
    every position history at least 4: each read of another boid in visual
    range then raises [IndexError]. *)
Theorem delay_raised_past_capacity (w h : R) (num : Z) (vr : R) (rand : nat -> R)
    (n : nat) (s s' : Sim) :
  BoidSimulation w h 1 num vr rand = Ok s -> run_ticks n s = Ok s' -> (2 <= n)%nat ->
  perception_delay (key_up (key_up s')) = 3%Z /\
  Forall (fun o => length (items (velocity_history o)) = 2%nat /\
                   (4 <= length (items (position_history o)))%nat) (boids s') /\
  (forall bi boid neighbors j o p, j <> bi -> nth_error (boids s') j = Some o ->
     py_index (items (position_history o)) (-3) = Ok p ->
     (x boid - fst p) * (x boid - fst p) + (y boid - snd p) * (y boid - snd p)
       < visual_range_sq s' ->
     visit_other (key_up (key_up s')) (boids s') bi boid neighbors j = Err IndexError).
Proof.
  intros Hs Hrun Hn.
  destruct (BoidSimulation_ok w h 1 num vr rand
      (proj1 (BoidSimulation_dims _ _ _ _ _ _ _ Hs))
      (proj2 (BoidSimulation_dims _ _ _ _ _ _ _ Hs)) ltac:(lia))
    as (s0 & Hs0 & _ & HF & Hd & _).
  rewrite Hs0 in Hs. injection Hs as <-.
  assert (HF0 : Forall (lengths_ok 1 0) (boids s0)).
  { eapply Forall_impl; [| exact HF]. intros b. apply fresh_lengths_ok. lia. }
  destruct (run_ticks_lengths 1 0 n s0 s' ltac:(lia) HF0 Hrun) as (Hsame & _ & HF').
  destruct Hsame as (_ & _ & _ & _ & Hd' & _). simpl in Hd'.
  assert (HD3 : perception_delay (key_up (key_up s')) = 3%Z).
  { simpl. rewrite <- Hd', Hd. reflexivity. }
  assert (Hlens : Forall (fun o => length (items (velocity_history o)) = 2%nat /\
                   (4 <= length (items (position_history o)))%nat) (boids s')).
  { eapply Forall_impl; [| exact HF']. intros b (H1 & _ & H3 & _).
    change (Z.to_nat (1 + 1)) with 2%nat in H1, H3. split; [exact H3 | lia]. }
  split; [exact HD3 |]. split; [exact Hlens |].
  intros bi boid neighbors j o p Hj Ho Hp Hr.
  rewrite Forall_forall in Hlens.
  destruct (Hlens o ltac:(eapply nth_error_In; exact Ho)) as [Hv Hph].
  apply (visit_other_velocity_too_short _ _ _ _ _ j o p Hj Ho); rewrite ?HD3.
  - lia.
  - exact Hp.
  - exact Hr.
  - lia.
  - rewrite Hv. lia.
Qed.

Lemma delay_raised_past_capacity_witness :
  exists s s', BoidSimulation 1024 768 1 2 75 (fun _ => 0) = Ok s /\
    run_ticks 2 s = Ok s' /\ perception_delay (key_up (key_up s')) = 3%Z.
Proof.
  destruct (BoidSimulation_ok 1024 768 1 2 75 (fun _ => 0) ltac:(lra) ltac:(lra) ltac:(lia))
    as (s & Hs & _ & HF & Hd & Hc & _).
  destruct (run_ticks_total 2 s 2) as (s' & Hr & _).
  { rewrite Hc. lra. }
  { rewrite Hd. lia. }
  { eapply Forall_impl; [| exact HF]. intros b. apply fresh_vel_ok. lia. }
  exists s, s'. split; [exact Hs |]. split; [exact Hr |].
  exact (proj1 (delay_raised_past_capacity 1024 768 2 75 (fun _ => 0) 2 s s'
                  Hs Hr ltac:(lia))).
Defined.

(** X11: construction accepts a delay of [-1]: both histories of every boid
    are then empty, every read of another boid by the neighbour query raises
    [IndexError], and so does the delayed marker of every boid. *)
Theorem delay_minus_one_unreadable (w h : R) (num : Z) (vr : R) (rand : nat -> R)
    (s : Sim) :
  BoidSimulation w h (-1) num vr rand = Ok s ->
  Forall (fun b => items (position_history b) = [] /\ items (velocity_history b) = [])
    (boids s) /\
  (forall bi boid neighbors j o, j <> bi -> nth_error (boids s) j = Some o ->
     visit_other s (boids s) bi boid neighbors j = Err IndexError) /\
  (forall b, In b (boids s) -> delayed_marker s b = Err IndexError).
Proof.
  intro Hs.
  destruct (BoidSimulation_ok w h (-1) num vr rand
      (proj1 (BoidSimulation_dims _ _ _ _ _ _ _ Hs))
      (proj2 (BoidSimulation_dims _ _ _ _ _ _ _ Hs)) ltac:(lia))
    as (s0 & Hs0 & _ & HF & Hd & _).
  rewrite Hs0 in Hs. injection Hs as <-.
  assert (Hempty : Forall (fun b => items (position_history b) = [] /\
                                    items (velocity_history b) = []) (boids s0)).
  { eapply Forall_impl; [| exact HF]. intros b (Hp & _ & Hv & _).
    rewrite Hp, Hv. split; reflexivity. }
  split; [exact Hempty |].
  rewrite Forall_forall in Hempty.
  split.
  - intros bi boid neighbors j o Hj Ho.
    destruct (Hempty o ltac:(eapply nth_error_In; exact Ho)) as [Hp _].
    apply visit_other_negative_delay with (o := o); rewrite ?Hd; try assumption; try lia.
    rewrite Hp. simpl. lia.
  - intros b Hin. destruct (Hempty b Hin) as [Hp _].
    unfold delayed_marker. rewrite Hd, Hp. reflexivity.
Qed.

Lemma delay_minus_one_unreadable_witness :
  exists s, BoidSimulation 1024 768 (-1) 2 75 (fun _ => 0) = Ok s /\
  forall b, In b (boids s) -> delayed_marker s b = Err IndexError.
Proof.
  eexists. split; [construct |].
  refine (proj2 (proj2 (delay_minus_one_unreadable 1024 768 2 75 (fun _ => 0) _ _))).
  construct.
Defined.

(** * Properties of the neighbour query and the grid *)

(** X12: every entry the neighbour query returns for boid [bi] is another
    boid of the list whose position history is longer than the delay, with
    the position and velocity read at [-perception_delay], strictly within
    visual range of the boid's current position. *)
Theorem get_neighbors_sound (s : Sim) (store : list Boid) (bi : nat) (boid : Boid)
    (g : grid) (ns : list neighbor) :
  get_neighbors_with_delay s store bi boid g = Ok ns ->
  Forall (perceived s store bi boid) ns.
Proof.
  unfold get_neighbors_with_delay.
  destruct (py_div (x boid) (cell_size s)); simpl; [| discriminate].
  destruct (py_div (y boid) (cell_size s)); simpl; [| discriminate].
  unfold scan_cells. apply fold_res_inv; [constructor |].
  intros acc i acc' _ Hacc. apply fold_res_inv; [exact Hacc |].
  intros acc0 j acc1 _ Hacc0.
  destruct (grid_lookup g (i, j)) as [bucket |]; [| congruence].
  apply fold_res_inv; [exact Hacc0 |].
  intros acc2 o acc3 _ Hacc2. apply visit_other_sound. exact Hacc2.
Qed.

Lemma get_neighbors_sound_witness :
  Forall (perceived scenario [boid_A; boid_B] 0 boid_A) [(1%nat, 10, 0, (-1, 0))].
Proof.
  apply (get_neighbors_sound scenario [boid_A; boid_B] 0 boid_A scenario_grid).
  exact scenario_neighbors_A.
Defined.

(** X14: with delay 0 the query reads index 0 of both histories, the oldest
    samples, and keeps the other boid exactly when that oldest position is
    within visual range. *)
Theorem visit_other_delay_zero (s : Sim) (store : list Boid) (bi : nat)
    (boid : Boid) (neighbors : list neighbor) (j : nat) (o : Boid)
    (p : R * R) (ps : list (R * R)) (v : R * R) (vs : list (R * R)) :
  perception_delay s = 0%Z -> j <> bi -> nth_error store j = Some o ->
  items (position_history o) = p :: ps -> items (velocity_history o) = v :: vs ->
  visit_other s store bi boid neighbors j
  = if Rlt_dec ((x boid - fst p) * (x boid - fst p) + (y boid - snd p) * (y boid - snd p))
               (visual_range_sq s)
    then Ok (neighbors ++ [(j, fst p, snd p, v)]) else Ok neighbors.
Proof.
  intros HD Hj Ho Hp Hv. unfold visit_other.
  replace (Nat.eqb j bi) with false by (symmetry; apply Nat.eqb_neq; exact Hj).
  rewrite Ho, Hp, Hv, HD.
  replace (0 <? Z.of_nat (length (p :: ps)))%Z with true
    by (symmetry; apply Z.ltb_lt; simpl; lia).
  change (- 0)%Z with 0%Z. rewrite py_index_zero. simpl. destruct p as [px py]. simpl.
  destruct (Rlt_dec _ _); reflexivity.
Qed.

Lemma visit_other_delay_zero_witness :
  visit_other (set_perception_delay scenario 0) [boid_A; boid_B] 0 boid_A [] 1
  = if Rlt_dec ((0 - 10) * (0 - 10) + (0 - 0) * (0 - 0)) (75 * 75)
    then Ok [(1%nat, 10, 0, (-1, 0))] else Ok [].
Proof.
  exact (visit_other_delay_zero (set_perception_delay scenario 0) [boid_A; boid_B] 0
           boid_A [] 1 boid_B (10, 0) [(10, 0)] (-1, 0) [(-1, 0)]
           eq_refl ltac:(lia) eq_refl eq_refl eq_refl).
Defined.

(** X15: the grid built by [update_boids] files boid [k] under cell [c]
    exactly when [k] indexes a boid whose truncated cell is [c]. *)
Theorem build_grid_buckets (cs : R) (bs : list Boid) (g : grid) :
  build_grid cs bs = Ok g ->
  forall c k, In k (bucket_of g c) <->
    exists b, nth_error bs k = Some b /\ cell_of cs b = Ok c.
Proof.
  intros H c k. unfold build_grid in H. rewrite (build_grid_from_buckets _ _ _ _ _ H c).
  unfold bucket_of at 1. simpl. rewrite cell_indices_spec.
  split; [intros (b & _ & Hn & Hc) | intros (b & Hn & Hc)];
    exists b; rewrite Nat.sub_0_r in *; auto with arith.
Qed.

Lemma build_grid_buckets_witness :
  In 1%nat (bucket_of scenario_grid (0, 0)%Z) <->
  exists b, nth_error [boid_A; boid_B] 1 = Some b /\ cell_of 75 b = Ok (0, 0)%Z.
Proof. exact (build_grid_buckets 75 [boid_A; boid_B] scenario_grid scenario_build_grid (0, 0)%Z 1). Defined.

(** X16: with a positive cell size, truncation puts a boid in cell [(0, 0)]
    exactly when both coordinates lie strictly between [-cell_size] and
    [cell_size]: the central cell is twice as wide and high as the others. *)
Theorem cell_of_origin (cs : R) (b : Boid) :
  0 < cs ->
  (cell_of cs b = Ok (0%Z, 0%Z) <-> - cs < x b < cs /\ - cs < y b < cs).
Proof.
  intro Hcs. rewrite cell_of_ok by lra.
  assert (Hd : forall v, -1 < v / cs < 1 <-> - cs < v < cs).
  { intro v. split; intros [H1 H2].
    - apply (Rmult_lt_compat_r cs) in H1, H2; [| lra | lra].
      unfold Rdiv in H1, H2. rewrite Rmult_assoc, Rinv_l, Rmult_1_r in H1, H2 by lra. lra.
    - split.
      + apply (Rmult_lt_reg_r cs); [lra |]. unfold Rdiv.
        rewrite Rmult_assoc, Rinv_l, Rmult_1_r by lra. lra.
      + apply (Rmult_lt_reg_r cs); [lra |]. unfold Rdiv.
        rewrite Rmult_assoc, Rinv_l, Rmult_1_r by lra. lra. }
  rewrite <- (Hd (x b)), <- (Hd (y b)), <- !py_int_zero_iff.
  split; [intro H; injection H as -> ->; split; reflexivity |].
  intros [-> ->]. reflexivity.
Qed.

Lemma cell_of_origin_witness :
  cell_of 75 boid_B = Ok (0%Z, 0%Z) <-> - 75 < x boid_B < 75 /\ - 75 < y boid_B < 75.
Proof. apply cell_of_origin. lra. Defined.

(** X17: the cell of the boid mirrored through the origin is the opposite of
    its cell: truncation toward zero is symmetric. *)
Theorem cell_of_mirror (cs : R) (b : Boid) :
  cs <> 0 ->
  cell_of cs (mkBoid (- x b) (- y b) (dx b) (dy b) (position_history b) (velocity_history b))
  = let* c := cell_of cs b in Ok (- fst c, - snd c)%Z.
Proof.
  intro Hcs. rewrite !cell_of_ok by exact Hcs. simpl.
  unfold Rdiv. rewrite !Ropp_mult_distr_l_reverse, !py_int_opp. reflexivity.
Qed.

Lemma cell_of_mirror_witness :
  cell_of 75 (mkBoid (- 100) (- 10) 0 0 (mk_deque 100 []) (mk_deque 2 []))
  = let* c := cell_of 75 (mkBoid 100 10 0 0 (mk_deque 100 []) (mk_deque 2 [])) in
    Ok (- fst c, - snd c)%Z.
Proof.
  apply (cell_of_mirror 75 (mkBoid 100 10 0 0 (mk_deque 100 []) (mk_deque 2 []))). lra.
Defined.

(** * Properties of [update_boids] and the rules *)

(** X18: [update_boids] raises only on a non-empty flock: [ZeroDivisionError]
    when the cell size is 0 (and always then), [IndexError] otherwise; on an
    empty flock it returns the state unchanged. *)
Theorem update_boids_errors (s : Sim) :
  (forall e, update_boids s = Err e ->
     boids s <> [] /\
     ((cell_size s = 0 /\ e = ZeroDivisionError) \/ (cell_size s <> 0 /\ e = IndexError))) /\
  (cell_size s = 0 -> boids s <> [] -> update_boids s = Err ZeroDivisionError) /\
  (boids s = [] -> update_boids s = Ok s).
Proof.
  split; [| split].
  - intros e H. unfold update_boids in H.
    destruct (build_grid (cell_size s) (boids s)) as [g |] eqn:Hg; simpl in H.
    + destruct (fold_res (process_boid s g) _ (boids s)) as [st |] eqn:Hf;
        simpl in H; [discriminate |]. injection H as <-.
      destruct (boids s) as [| b bs] eqn:Hbs; [discriminate |].
      destruct (Req_EM_T (cell_size s) 0) as [Hcs | Hcs].
      { unfold build_grid in Hg. simpl in Hg. rewrite Hcs, cell_of_zero in Hg.
        discriminate. }
      split; [discriminate |]. right. split; [exact Hcs |].
      revert Hf. apply (fold_res_err _ (fun e => e = IndexError)). intros acc k ek _ Hp.
      unfold process_boid in Hp.
      destruct (nth_error acc k) as [o |]; [| discriminate].
      rewrite get_neighbors_cell, cell_of_ok in Hp by exact Hcs. simpl in Hp.
      destruct (scan_cells _ _ _ _ _ _ _) eqn:Hsc; simpl in Hp; [discriminate |].
      injection Hp as <-. revert Hsc. unfold scan_cells.
      apply (fold_res_err _ (fun e => e = IndexError)). intros acc0 i0 e1 _.
      apply (fold_res_err _ (fun e => e = IndexError)). intros acc1 j0 e2 _.
      destruct (grid_lookup g (i0, j0)); [| discriminate].
      apply (fold_res_err _ (fun e => e = IndexError)). intros acc2 o2 e3 _.
      apply visit_other_err.
    + injection H as <-. unfold build_grid in Hg.
      destruct (build_grid_from_err _ _ _ _ _ Hg) as (He & Hc & Hne). subst e0.
      split; [exact Hne | left; split; [exact Hc | reflexivity]].
  - intros Hcs Hne. unfold update_boids, build_grid. rewrite Hcs.
    destruct (boids s) as [| b bs]; [contradiction |].
    simpl. rewrite cell_of_zero. reflexivity.
  - intro Hnil. unfold update_boids, build_grid. rewrite Hnil. simpl.
    destruct s; simpl in *; subst; reflexivity.
Qed.

(** X19: after [update_boids] the parameters are unchanged, the number of
    boids too, and each boid has moved by its new velocity, with the new
    position and velocity appended to its histories. *)
Theorem update_boids_frame (s s' : Sim) :
  update_boids s = Ok s' ->
  s' = set_boids s (boids s') /\ length (boids s') = length (boids s) /\
  forall j b', nth_error (boids s') j = Some b' ->
    exists b, nth_error (boids s) j = Some b /\
      x b' = x b + dx b' /\ y b' = y b + dy b' /\
      position_history b' = deque_append (position_history b) (x b', y b') /\
      velocity_history b' = deque_append (velocity_history b) (dx b', dy b').
Proof.
  intro H. destruct (update_boids_each s s' H) as [Hlen Heach].
  split; [| split; [exact Hlen |]].
  - unfold update_boids in H.
    destruct (build_grid _ _); simpl in H; [| discriminate].
    destruct (fold_res _ _ _); simpl in H; [| discriminate].
    injection H as <-. reflexivity.
  - intros j b' Hj. destruct (Heach j b' Hj) as (b & nbs & Hb & ->).
    exists b. split; [exact Hb |].
    destruct (apply_rules_place s b nbs) as (Hx & Hy & Hp & Hv).
    unfold integrate. cbn [x y dx dy position_history velocity_history].
    rewrite Hx, Hy, Hp, Hv. repeat split; reflexivity.
Qed.

Lemma update_boids_frame_witness :
  x boid_B1 = x boid_B + dx boid_B1 /\
  position_history boid_B1 = deque_append (position_history boid_B) (x boid_B1, y boid_B1).
Proof.
  destruct (update_boids_frame scenario _ scenario_update) as (_ & _ & H).
  destruct (H 1%nat boid_B1 eq_refl) as (b & Hb & Hx & _ & Hp & _).
  simpl in Hb. injection Hb as <-. split; [exact Hx | exact Hp].
Defined.

(** X20: [keep_within_bounds] changes only the velocity, each component by
    [-turn_factor], 0 or [+turn_factor]: up when the boid is before the
    margin (and not also past the far one), down when it is past the far
    margin (and not also before the near one), unchanged inside. *)
Theorem keep_within_bounds_steps (w h : R) (b : Boid) :
  same_place (keep_within_bounds w h b) b /\
  (dx (keep_within_bounds w h b) - dx b = - turn_factor \/
   dx (keep_within_bounds w h b) - dx b = 0 \/
   dx (keep_within_bounds w h b) - dx b = turn_factor) /\
  (dy (keep_within_bounds w h b) - dy b = - turn_factor \/
   dy (keep_within_bounds w h b) - dy b = 0 \/
   dy (keep_within_bounds w h b) - dy b = turn_factor) /\
  (x b < margin -> x b <= w - margin -> dx (keep_within_bounds w h b) = dx b + turn_factor) /\
  (w - margin < x b -> margin <= x b -> dx (keep_within_bounds w h b) = dx b - turn_factor) /\
  (margin <= x b <= w - margin -> dx (keep_within_bounds w h b) = dx b) /\
  (y b < margin -> y b <= h - margin -> dy (keep_within_bounds w h b) = dy b + turn_factor) /\
  (h - margin < y b -> margin <= y b -> dy (keep_within_bounds w h b) = dy b - turn_factor) /\
  (margin <= y b <= h - margin -> dy (keep_within_bounds w h b) = dy b).
Proof.
  unfold keep_within_bounds, margin, turn_factor.
  split; [repeat split |].
  simpl.
  destruct (Rlt_dec (x b) 200), (Rlt_dec (w - 200) (x b)),
    (Rlt_dec (y b) 200), (Rlt_dec (h - 200) (y b));
    repeat split; intros; lra.
Qed.

(** X22: [avoid_others] leaves a boid unchanged when no neighbour's delayed
    position is closer than [min_distance]. *)
Theorem avoid_others_far (b : Boid) (ns : list neighbor) :
  Forall (fun n : neighbor => let '(_, px, py, _) := n in
     min_distance * min_distance <= (x b - px) * (x b - px) + (y b - py) * (y b - py)) ns ->
  avoid_others b ns = b.
Proof.
  intro HF. unfold avoid_others. rewrite avoid_fold_far by exact HF.
  destruct b as [bx by' bdx bdy ph vh]. unfold set_velocity. simpl.
  rewrite !Rmult_0_l, !Rplus_0_r. reflexivity.
Qed.

Lemma avoid_others_far_witness :
  avoid_others boid_A [(1%nat, 30, 0, (-1, 0))] = boid_A.
Proof.
  apply avoid_others_far. repeat constructor. cbv [min_distance x y boid_A]. nra.
Defined.

(** X23: with at least one neighbour, [fly_towards_center] steers toward the
    mean of the delayed positions, by [centering_factor] of the offset. *)
Theorem fly_towards_center_mean (b : Boid) (ns : list neighbor) :
  ns <> [] ->
  fly_towards_center b ns
  = set_velocity b
      (dx b + (sum_R (map (fun n : neighbor => let '(_, px, _, _) := n in px) ns)
               / INR (length ns) - x b) * centering_factor)
      (dy b + (sum_R (map (fun n : neighbor => let '(_, _, py, _) := n in py) ns)
               / INR (length ns) - y b) * centering_factor).
Proof.
  intro Hne. unfold fly_towards_center. rewrite center_fold. simpl.
  rewrite !Rplus_0_l.
  destruct ns as [| n ns]; [contradiction | reflexivity].
Qed.

Lemma fly_towards_center_mean_witness :
  fly_towards_center boid_A [(1%nat, 10, 0, (-1, 0)); (2%nat, 20, 4, (0, 1))]
  = set_velocity boid_A (dx boid_A + ((10 + (20 + 0)) / INR 2 - x boid_A) * centering_factor)
                        (dy boid_A + ((0 + (4 + 0)) / INR 2 - y boid_A) * centering_factor).
Proof.
  exact (fly_towards_center_mean boid_A [(1%nat, 10, 0, (-1, 0)); (2%nat, 20, 4, (0, 1))]
           ltac:(discriminate)).
Defined.

(** X24: with at least one neighbour, [match_velocity] moves the velocity
    toward the mean of the delayed velocities, by [matching_factor] of the
    difference. *)
Theorem match_velocity_mean (b : Boid) (ns : list neighbor) :
  ns <> [] ->
  match_velocity b ns
  = set_velocity b
      (dx b + (sum_R (map (fun n : neighbor => let '(_, _, _, v) := n in fst v) ns)
               / INR (length ns) - dx b) * matching_factor)
      (dy b + (sum_R (map (fun n : neighbor => let '(_, _, _, v) := n in snd v) ns)
               / INR (length ns) - dy b) * matching_factor).
Proof.
  intro Hne. unfold match_velocity. rewrite match_fold. simpl.
  rewrite !Rplus_0_l.
  destruct ns as [| n ns]; [contradiction | reflexivity].
Qed.

Lemma match_velocity_mean_witness :
  match_velocity boid_A [(1%nat, 10, 0, (-1, 0)); (2%nat, 20, 4, (0, 1))]
  = set_velocity boid_A (dx boid_A + ((-1 + (0 + 0)) / INR 2 - dx boid_A) * matching_factor)
                        (dy boid_A + ((0 + (1 + 0)) / INR 2 - dy boid_A) * matching_factor).
Proof.
  exact (match_velocity_mean boid_A [(1%nat, 10, 0, (-1, 0)); (2%nat, 20, 4, (0, 1))]
           ltac:(discriminate)).
Defined.
